(** * Aero-Coffe: coordinate codec, fix acquisition and detection aggregation

    A shallow embedding of [src/aero_coffe/take_images.py] and
    [src/aero_coffe/main.py].

    - Python [str] values are [string]s (sequences of code points below 256).
    - Python [int] values are [Z].
    - Python [float] values are rationals [Q]; every floating-point operation
      is the exact operation followed by a rounding operator [rnd].  The
      development is parametric in [rnd]; [exact] (no rounding) and
      [binary64] (IEEE 754 round-to-nearest-even on 53 bits) are the two
      instances that are run.
    - Exceptions are a [result] type; [try]/[except] is pattern matching.
    - Dictionaries are [gmap]s. *)

From Stdlib Require Import ZArith QArith Qround Qabs Qpower Lqa Lia.
From Stdlib Require Import Ascii String List DecimalString DecimalZ.
From stdpp Require Import gmap strings list.

Local Open Scope string_scope.
Local Open Scope list_scope.
Local Open Scope Z_scope.

(** ** Exceptions *)

Inductive exn : Type :=
  | ValueError
  | IndexError
  | ZeroDivisionError
  | SerialException
  | TypeError.

Inductive result (A : Type) : Type :=
  | Ok (a : A)
  | Raise (e : exn).

Arguments Ok {A} a.
Arguments Raise {A} e.

Definition bind {A B : Type} (r : result A) (k : A -> result B) : result B :=
  match r with
  | Ok a => k a
  | Raise e => Raise e
  end.

Notation "'let*' x ':=' r 'in' k" := (bind r (fun x => k))
  (at level 10, x name, r at level 100, k at level 200).

(** ** Python strings *)

Module Py.

(** [str.isspace] on code points below 256. *)
Definition is_space (c : ascii) : bool :=
  let n := Z.of_nat (nat_of_ascii c) in
  ((9 <=? n) && (n <=? 13)) || ((28 <=? n) && (n <=? 32))
  || (n =? 133) || (n =? 160).

Fixpoint lstrip (s : string) : string :=
  match s with
  | String c s' => if is_space c then lstrip s' else s
  | EmptyString => EmptyString
  end.

Fixpoint rstrip (s : string) : string :=
  match s with
  | EmptyString => EmptyString
  | String c s' =>
      match rstrip s' with
      | EmptyString => if is_space c then EmptyString else String c EmptyString
      | r => String c r
      end
  end.

(** [s.strip()] *)
Definition strip (s : string) : string := rstrip (lstrip s).

(** [s.startswith(p)] *)
Definition startswith (s p : string) : bool := String.prefix p s.

(** [s.split(sep)] for a one-character separator. *)
Fixpoint split (sep : ascii) (s : string) : list string :=
  match s with
  | EmptyString => [EmptyString]
  | String c s' =>
      if Ascii.eqb c sep then EmptyString :: split sep s'
      else match split sep s' with
           | p :: ps => String c p :: ps
           | [] => [String c EmptyString]
           end
  end.

(** [b.decode('ascii', errors='ignore')]: bytes above 127 are dropped. *)
Fixpoint decode_ascii_ignore (b : string) : string :=
  match b with
  | EmptyString => EmptyString
  | String c b' =>
      if (Z.of_nat (nat_of_ascii c) <? 128)
      then String c (decode_ascii_ignore b')
      else decode_ascii_ignore b'
  end.

(** Truth value of a string: the empty string is false. *)
Definition truthy (s : string) : bool :=
  match s with
  | EmptyString => false
  | _ => true
  end.

(** [len(s)] *)
Definition len (s : string) : Z := Z.of_nat (String.length s).

(** *** Numeric literals *)

Definition digit_of (c : ascii) : option Z :=
  let n := Z.of_nat (nat_of_ascii c) in
  if (48 <=? n) && (n <=? 57) then Some (n - 48) else None.

(** The rest of a [digitpart ::= digit (["_"] digit)*] after its first
    digit: the value read so far, the number of digits, what is left. *)
Fixpoint digits_tail (acc : Z) (cnt : Z) (s : string) : Z * Z * string :=
  match s with
  | EmptyString => (acc, cnt, s)
  | String c s' =>
      match digit_of c with
      | Some d => digits_tail (10 * acc + d) (cnt + 1) s'
      | None =>
          if Ascii.eqb c "_" then
            match s' with
            | String c' s'' =>
                match digit_of c' with
                | Some d => digits_tail (10 * acc + d) (cnt + 1) s''
                | None => (acc, cnt, s)
                end
            | EmptyString => (acc, cnt, s)
            end
          else (acc, cnt, s)
      end
  end.

Definition digitpart (s : string) : option (Z * Z * string) :=
  match s with
  | String c s' =>
      match digit_of c with
      | Some d => Some (digits_tail d 1 s')
      | None => None
      end
  | EmptyString => None
  end.

(** An optional sign; [true] is minus. *)
Definition sign_of (s : string) : bool * string :=
  match s with
  | String "-" s' => (true, s')
  | String "+" s' => (false, s')
  | _ => (false, s)
  end.

(** The white space that [int(s)] and [float(s)] skip at both ends of [s]
    is C's [isspace], which is narrower than [str.isspace]: the separators
    28 to 31 are not in it. *)
Definition is_c_space (c : ascii) : bool :=
  let n := Z.of_nat (nat_of_ascii c) in
  ((9 <=? n) && (n <=? 13)) || (n =? 32).

Fixpoint lstrip_c (s : string) : string :=
  match s with
  | String c s' => if is_c_space c then lstrip_c s' else s
  | EmptyString => EmptyString
  end.

Fixpoint rstrip_c (s : string) : string :=
  match s with
  | EmptyString => EmptyString
  | String c s' =>
      match rstrip_c s' with
      | EmptyString =>
          if is_c_space c then EmptyString else String c EmptyString
      | r => String c r
      end
  end.

Definition is_ascii (s : string) : bool :=
  forallb (fun c => Z.of_nat (nat_of_ascii c) <? 128) (list_ascii_of_string s).

(** Before they parse it, [int] and [float] rewrite a string that is not
    ASCII: a code point from 127 on that [str.isspace] accepts becomes a
    space, and any other one (none below 256 is a decimal digit) becomes a
    question mark, which ends the text. *)
Fixpoint to_ascii_text (s : string) : string :=
  match s with
  | EmptyString => EmptyString
  | String c s' =>
      if Z.of_nat (nat_of_ascii c) <? 127 then String c (to_ascii_text s')
      else if is_space c then String " " (to_ascii_text s')
      else "?"
  end.

(** The text [int] and [float] parse. *)
Definition numeric_text (s : string) : string :=
  let t := if is_ascii s then s else to_ascii_text s in
  rstrip_c (lstrip_c t).

(** [sys.get_int_max_str_digits()], at its default. *)
Definition int_max_str_digits : Z := 4300.

(** [int(s)] in base 10; a literal of more than [int_max_str_digits]
    digits is refused. *)
Definition int (s : string) : result Z :=
  let '(neg, t) := sign_of (numeric_text s) in
  match digitpart t with
  | Some (v, cnt, EmptyString) =>
      if int_max_str_digits <? cnt then Raise ValueError
      else Ok (if neg then - v else v)
  | _ => Raise ValueError
  end.

Definition lower (c : ascii) : ascii :=
  let n := nat_of_ascii c in
  if ((65 <=? n) && (n <=? 90))%nat then ascii_of_nat (n + 32) else c.

Fixpoint lowercase (s : string) : string :=
  match s with
  | EmptyString => EmptyString
  | String c s' => String (lower c) (lowercase s')
  end.

(** The decimal literal of [float(s)] after the sign: mantissa digits as an
    integer, the number of digits after the point, the exponent. *)
Definition exponent (s : string) : option (Z * string) :=
  match s with
  | String c s' =>
      if Ascii.eqb (lower c) "e" then
        let '(neg, t) := sign_of s' in
        match digitpart t with
        | Some (v, _, rest) => Some (if neg then - v else v, rest)
        | None => None
        end
      else Some (0, s)
  | EmptyString => Some (0, s)
  end.

Definition fraction (acc : Z) (s : string) : Z * Z * string :=
  match s with
  | String c s' =>
      match digit_of c with
      | Some d => digits_tail (10 * acc + d) 1 s'
      | None => (acc, 0, s)
      end
  | EmptyString => (acc, 0, s)
  end.

Definition decimal_literal (s : string) : option (Z * Z * Z) :=
  match digitpart s with
  | Some (i, _, String "." s') =>
      let '(m, k, rest) := fraction i s' in
      match exponent rest with
      | Some (e, EmptyString) => Some (m, k, e)
      | _ => None
      end
  | Some (i, _, rest) =>
      match exponent rest with
      | Some (e, EmptyString) => Some (i, 0, e)
      | _ => None
      end
  | None =>
      match s with
      | String "." s' =>
          match digitpart s' with
          | Some (m, k, rest) =>
              match exponent rest with
              | Some (e, EmptyString) => Some (m, k, e)
              | _ => None
              end
          | None => None
          end
      | _ => None
      end
  end.

Definition is_nonfinite_literal (s : string) : bool :=
  let l := lowercase s in
  String.eqb l "inf" || String.eqb l "infinity" || String.eqb l "nan".

End Py.

(** ** Floating point *)

(** Python's [int(x)] on a float: truncation towards zero. *)
Definition int_of_float (x : Q) : Z := Z.quot (Qnum x) (Zpos (Qden x)).

(** What [float(s)] can return: a finite number, or one of [inf], [-inf]
    and [nan]. *)
Inductive float_value : Type :=
  | Finite (q : Q)
  | NonFinite.

(** No rounding at all: arithmetic on the rationals. *)
Definition exact (x : Q) : Q := x.

(** IEEE 754 binary64 rounding (to nearest, ties to even), exponent range
    unbounded above; below [2^-1022] the spacing stays [2^-1074]. *)
Definition binade (a : Q) : Z :=
  let e0 := Z.log2 (Qnum a) - Z.log2 (Zpos (Qden a)) in
  if Qle_bool (2 ^ e0) a then e0 else e0 - 1.

Definition ulp_exponent (a : Q) : Z := Z.max (binade a) (-1022) - 52.

Definition round_half_even (r : Q) : Z :=
  let f := Qfloor r in
  match (r - inject_Z f ?= 1 # 2)%Q with
  | Lt => f
  | Gt => f + 1
  | Eq => if Z.even f then f else f + 1
  end.

Definition binary64 (x : Q) : Q :=
  match Qnum x with
  | 0 => 0%Q
  | _ =>
      let q := (2 ^ ulp_exponent (Qabs x))%Q in
      (inject_Z (round_half_even (x / q)) * q)%Q
  end.

(** The standard model of floating-point arithmetic: relative error at most
    [2^-53], plus an absolute error of at most [2^-1075] where the result is
    subnormal. *)
Definition unit_roundoff : Q := (2 ^ (-53))%Q.
Definition underflow_unit : Q := (2 ^ (-1075))%Q.

Definition standard_model (rnd : Q -> Q) : Prop :=
  forall x : Q, (Qabs (rnd x - x) <= unit_roundoff * Qabs x + underflow_unit)%Q.

Definition Qlt_bool (x y : Q) : bool := negb (Qle_bool y x).

Section Rounded.

Variable rnd : Q -> Q.

Definition fadd (x y : Q) : Q := rnd (x + y).
Definition fsub (x y : Q) : Q := rnd (x - y).
Definition fmul (x y : Q) : Q := rnd (x * y).
(** [x / y] for a divisor that is not zero. *)
Definition fdiv (x y : Q) : Q := rnd (x / y).
(** C's [fmod(x, y)] for a divisor that is not zero: it is exact, and has
    the sign of [x]. *)
Definition c_fmod (x y : Q) : Q := (x - inject_Z (int_of_float (x / y)) * y)%Q.

(** [divmod(x, y)] for a divisor that is not zero, as the interpreter
    computes it: the remainder [md] of [fmod], moved to the sign of the
    divisor; the quotient [(x - md) / y], less one if the remainder was
    moved, then brought to the nearest whole number. *)
Definition float_divmod (x y : Q) : Q * Q :=
  let md := c_fmod x y in
  let dv := rnd (rnd (x - md) / y) in
  let '(md, dv) :=
    if negb (Qeq_bool md 0)
       && negb (Bool.eqb (Qlt_bool y 0) (Qlt_bool md 0))
    then (rnd (md + y), rnd (dv - 1))
    else (md, dv) in
  let floordiv :=
    if Qeq_bool dv 0 then 0%Q
    else
      let floordiv := inject_Z (Qfloor dv) in
      if Qlt_bool (1 # 2) (rnd (dv - floordiv)) then rnd (floordiv + 1)
      else floordiv in
  (floordiv, md).

(** [x // y] and [x % y] *)
Definition ffloordiv (x y : Q) : Q := fst (float_divmod x y).
Definition fmod (x y : Q) : Q := snd (float_divmod x y).
(** An [int] operand of a float operation. *)
Definition float_of_int (n : Z) : Q := rnd (inject_Z n).

(** [float(s)] for a string: the correctly rounded value of the literal;
    a literal beyond the largest float gives [inf]. *)
Definition literal_value (m k e : Z) : Q := (inject_Z m * 10 ^ (e - k))%Q.

Definition float_of_string (s : string) : result float_value :=
  let '(neg, t) := Py.sign_of (Py.numeric_text s) in
  if Py.is_nonfinite_literal t then Ok NonFinite
  else
    match Py.decimal_literal t with
    | Some (m, k, e) =>
        let v := rnd (literal_value m k e) in
        if Qle_bool (2 ^ 1024) (Qabs v) then Ok NonFinite
        else Ok (Finite (if neg then - v else v)%Q)
    | None => Raise ValueError
    end.

(** ** take_images.py: the coordinate codec *)

(** The two arms of the degree-width test, as they are written. *)
Definition latitude_layout (coord_float : Q) : Z * Q :=
  (int_of_float (ffloordiv coord_float 100), fmod coord_float 100).

Definition longitude_layout (coord_float : Q) : Z * Q :=
  (int_of_float (ffloordiv coord_float 100), fmod coord_float 100).

Definition in_S_W (direction : string) : bool :=
  String.eqb direction "S" || String.eqb direction "W".

Definition parse_nmea_coordinate (coord_str direction : string)
  : result (option Q) :=
  if negb (Py.truthy coord_str) || String.eqb coord_str "" then Ok None
  else
    let* coord_float := float_of_string coord_str in
    match coord_float with
    | NonFinite =>
        (* [inf // 100] and [nan // 100] are [nan]; [int(nan)] raises *)
        Raise ValueError
    | Finite coord_float =>
        let '(degrees, minutes) :=
          if Py.len (hd "" (Py.split "." coord_str)) =? 4
          then latitude_layout coord_float
          else longitude_layout coord_float in
        let decimal_degrees :=
          fadd (float_of_int degrees) (fdiv minutes 60) in
        let decimal_degrees :=
          if in_S_W direction then (- decimal_degrees)%Q
          else decimal_degrees in
        Ok (Some decimal_degrees)
    end.

(** An EXIF rational: numerator and denominator. *)
Definition rational : Type := Z * Z.

Definition to_dms (degree : Q) : rational * rational * rational :=
  let degree := Qabs degree in
  let d := int_of_float degree in
  let m := int_of_float (fmul (fsub degree (float_of_int d)) 60) in
  let s :=
    fmul (fsub (fmul (fsub degree (float_of_int d)) 60) (float_of_int m)) 60 in
  ((d, 1), (m, 1), (int_of_float (fmul s 1000), 1000)).

(** The GPS tags of an image as [exifread] gives them; a tag may be
    missing. *)
Record gps_tags : Type := {
  GPSLatitude : option (list rational);
  GPSLongitude : option (list rational);
  GPSLatitudeRef : option string;
  GPSLongitudeRef : option string
}.

(** [float(r)] for a [Ratio]. *)
Definition float_of_ratio (r : rational) : result Q :=
  let '(n, d) := r in
  if d =? 0 then Raise ZeroDivisionError
  else Ok (rnd (inject_Z n / inject_Z d)%Q).

(** [vals[i]] *)
Definition item {A : Type} (vals : list A) (i : nat) : result A :=
  match nth_error vals i with
  | Some v => Ok v
  | None => Raise IndexError
  end.

(** [float(vals[0]) + float(vals[1])/60 + float(vals[2])/3600] *)
Definition dms_to_decimal (vals : list rational) : result Q :=
  let* v0 := item vals 0 in
  let* f0 := float_of_ratio v0 in
  let* v1 := item vals 1 in
  let* f1 := float_of_ratio v1 in
  let* v2 := item vals 2 in
  let* f2 := float_of_ratio v2 in
  Ok (fadd (fadd f0 (fdiv f1 60)) (fdiv f2 3600)).

(** [str(tags.get(name, ''))] *)
Definition ref_of (tag : option string) : string := default "" tag.

(** [read_existing_gps_from_image]: [None] for the tags when the file
    cannot be opened or read. *)
Definition read_existing_gps_from_image (tags : option gps_tags)
  : option (Q * Q) :=
  match tags with
  | None => None
  | Some tags =>
      match GPSLatitude tags, GPSLongitude tags with
      | Some lat_vals, Some lon_vals =>
          let lat_ref := ref_of (GPSLatitudeRef tags) in
          let lon_ref := ref_of (GPSLongitudeRef tags) in
          match
            (let* lat := dms_to_decimal lat_vals in
             let* lon := dms_to_decimal lon_vals in
             let lat := if String.eqb lat_ref "S" then (- lat)%Q else lat in
             let lon := if String.eqb lon_ref "W" then (- lon)%Q else lon in
             Ok (lat, lon))
          with
          | Ok r => Some r
          | Raise _ => None
          end
      | _, _ => None
      end
  end.

(** The values [exifread] reads back from the three rationals that
    [piexif] stored. *)
Definition dms_values (t : rational * rational * rational) : list rational :=
  let '(d, m, s) := t in [d; m; s].

(** The GPS block [add_gps_to_image] writes. *)
Definition gps_ifd (lat lon : Q) : gps_tags :=
  {| GPSLatitudeRef := Some (if Qlt_le_dec lat 0 then "S" else "N");
     GPSLatitude := Some (dms_values (to_dms lat));
     GPSLongitudeRef := Some (if Qlt_le_dec lon 0 then "W" else "E");
     GPSLongitude := Some (dms_values (to_dms lon)) |}.

End Rounded.

(** ** take_images.py: fix acquisition *)

(** What one [ser.readline()] does: it returns bytes (possibly none, on the
    one-second timeout), or raises [serial.SerialException]. *)
Inductive read_event : Type :=
  | Bytes (b : string)
  | ReadFails.

(** The serial port: what the device will send, and whether the connection
    is open. *)
Record port : Type := {
  pending : list read_event;
  is_open : bool
}.

Definition readline (ser : port) : read_event * port :=
  match pending ser with
  | [] => (Bytes "", ser)
  | ev :: rest => (ev, {| pending := rest; is_open := is_open ser |})
  end.

Definition close (ser : port) : port :=
  {| pending := pending ser; is_open := false |}.

(** How [read_gps] ends.  The last three all return [None]. *)
Inductive outcome : Type :=
  | Fixed (lat lon : Q)
  | TimedOut
  | DeviceError
  | UnexpectedError (e : exn).

Definition returned (o : outcome) : option (Q * Q) :=
  match o with
  | Fixed lat lon => Some (lat, lon)
  | _ => None
  end.

(** What the body of the [while] loop does with one line. *)
Inductive line_result : Type :=
  | GotFix (lat lon : Q)
  | NoFix
  | Escapes (e : exn).

Definition max_attempts : Z := 50.

Section Acquisition.

Variable rnd : Q -> Q.

(** [len(parts) >= 7 and parts[6] and int(parts[6]) > 0] *)
Definition has_valid_fix (parts : list string) : result bool :=
  if 7 <=? Z.of_nat (length parts) then
    let* quality := item parts 6 in
    if Py.truthy quality then
      let* q := Py.int quality in Ok (0 <? q)
    else Ok false
  else Ok false.

(** The body of the inner [try]. *)
Definition extract_coordinates (parts : list string)
  : result (option (Q * Q)) :=
  let* lat_str := item parts 2 in
  let* lat_dir := item parts 3 in
  let* lon_str := item parts 4 in
  let* lon_dir := item parts 5 in
  if Py.truthy lat_str && Py.truthy lon_str
     && Py.truthy lat_dir && Py.truthy lon_dir then
    let* lat := parse_nmea_coordinate rnd lat_str lat_dir in
    let* lon := parse_nmea_coordinate rnd lon_str lon_dir in
    match lat, lon with
    | Some lat, Some lon => Ok (Some (lat, lon))
    | _, _ => Ok None
    end
  else Ok None.

Definition examine_line (line : string) : line_result :=
  if Py.startswith line "$GPGGA" || Py.startswith line "$GNGGA" then
    let parts := Py.split "," line in
    match has_valid_fix parts with
    | Raise e => Escapes e
    | Ok false => NoFix
    | Ok true =>
        match extract_coordinates parts with
        | Ok (Some (lat, lon)) => GotFix lat lon
        | Ok None => NoFix
        | Raise ValueError | Raise IndexError => NoFix
        | Raise e => Escapes e
        end
    end
  else NoFix.

Record loop_state : Type := {
  attempts : Z;
  ser : port
}.

Inductive step : Type :=
  | Continue (st : loop_state)
  | Return (o : outcome) (ser : port).

(** One turn of the [while] loop. *)
Definition loop_body (st : loop_state) : step :=
  match readline (ser st) with
  | (ReadFails, ser') => Return DeviceError ser'
  | (Bytes b, ser') =>
      let line := Py.strip (Py.decode_ascii_ignore b) in
      match examine_line line with
      | GotFix lat lon => Return (Fixed lat lon) (close ser')
      | Escapes e => Return (UnexpectedError e) ser'
      | NoFix => Continue {| attempts := attempts st + 1; ser := ser' |}
      end
  end.

(** [while attempts < max_attempts: ...], then the timeout. *)
Fixpoint while_loop (fuel : nat) (st : loop_state) : option (outcome * port) :=
  if attempts st <? max_attempts then
    match fuel with
    | O => None
    | S fuel' =>
        match loop_body st with
        | Continue st' => while_loop fuel' st'
        | Return o ser' => Some (o, ser')
        end
    end
  else Some (TimedOut, close (ser st)).

(** [read_gps]: the device is [None] when the port cannot be opened.  The
    result is how the function ended, and the port if one was opened. *)
Definition read_gps (device : option (list read_event))
  : option (outcome * option port) :=
  match device with
  | None => Some (DeviceError, None)
  | Some incoming =>
      match while_loop (Z.to_nat max_attempts)
              {| attempts := 0;
                 ser := {| pending := incoming; is_open := true |} |} with
      | Some (o, ser') => Some (o, Some ser')
      | None => None
      end
  end.

End Acquisition.

(** ** main.py: detection records *)

(** One prediction of the inference service; the class name may be
    missing. *)
Record prediction : Type := {
  class_id : Z;
  class_name : option string
}.

Record detection_record : Type := {
  image_path : string;
  latitude : Q;
  longitude : Q;
  total_detections : Z;
  detection_counts : gmap string Z;
  timestamp : string
}.

(** [f"class_{class_id}"] *)
Definition synthetic_label (class_id : Z) : string :=
  "class_" ++ NilZero.string_of_int (Z.to_int class_id).

(** [detection_counts[class_name] = detection_counts.get(class_name, 0) + 1] *)
Definition tally (counts : gmap string Z) (name : string) : gmap string Z :=
  <[name := default 0 (counts !! name) + 1]> counts.

(** The counting loop over [detections.class_id]; the name is read from
    [results.predictions[0]] at every turn. *)
Fixpoint count_loop (predictions : list prediction) (class_ids : list Z)
    (counts : gmap string Z) : result (gmap string Z) :=
  match class_ids with
  | [] => Ok counts
  | class_id :: rest =>
      let* first := item predictions 0 in
      let name :=
        match class_name first with
        | Some n => n
        | None => synthetic_label class_id
        end in
      count_loop predictions rest (tally counts name)
  end.

(** [sv.Detections.from_inference(results)]: one detection for each
    prediction; of a detection only the class id is read. *)
Definition from_inference (predictions : list prediction) : list Z :=
  map class_id predictions.

(** [sum(d.values())] *)
Definition sum_values (d : gmap string Z) : Z :=
  map_fold (fun _ v acc => v + acc) 0 d.

Section Heatmap.

Variable rnd : Q -> Q.

(** [GPSDetectionHeatmap.read_gps_from_image] is the same code as
    [read_existing_gps_from_image]. *)
Definition read_gps_from_image (tags : option gps_tags) : option (Q * Q) :=
  read_existing_gps_from_image rnd tags.

(** [process_single_image].  The collaborators are inputs: the tags of the
    file, whether [cv2.imread] decodes it, what the model infers (or the
    exception it raises), and the clock. *)
Definition process_single_image (path : string) (tags : option gps_tags)
    (decodes : bool) (inference : result (list prediction)) (now : string)
  : option detection_record :=
  match read_gps_from_image tags with
  | None => None
  | Some (lat, lon) =>
      if negb decodes then None
      else
        match
          (let* predictions := inference in
           let detections := from_inference predictions in
           let* counts :=
             if 0 <? Z.of_nat (length detections)
             then count_loop predictions detections ∅
             else Ok ∅ in
           Ok {| image_path := path;
                 latitude := lat;
                 longitude := lon;
                 total_detections := Z.of_nat (length detections);
                 detection_counts := counts;
                 timestamp := now |})
        with
        | Ok r => Some r
        | Raise _ => None
        end
  end.

(** [sum(xs) / len(xs)] *)
Definition mean (xs : list Q) : Q :=
  fdiv rnd (fold_left (fadd rnd) xs 0%Q)
           (float_of_int rnd (Z.of_nat (length xs))).

Definition weighted_point : Type := Q * Q * Z.

Record marker : Type := {
  marker_location : Q * Q;
  marker_radius : Z
}.

(** What is handed to the renderer. *)
Record folium_map : Type := {
  location : Q * Q;
  heat_layer : option (list weighted_point);
  markers : list marker
}.

(** The [heat_data] list of [create_basic_heatmap]. *)
Definition basic_heat_data (detection_data : list detection_record)
  : list weighted_point :=
  map (fun item =>
         let intensity := Z.max 1 (total_detections item) in
         (latitude item, longitude item, intensity))
      detection_data.

Definition center (detection_data : list detection_record) : Q * Q :=
  (mean (map latitude detection_data), mean (map longitude detection_data)).

Definition create_basic_heatmap (detection_data : list detection_record)
  : option folium_map :=
  match detection_data with
  | [] => None
  | _ =>
      Some {| location := center detection_data;
              heat_layer := Some (basic_heat_data detection_data);
              markers :=
                map (fun item =>
                       {| marker_location := (latitude item, longitude item);
                          marker_radius := 5 + total_detections item |})
                    detection_data |}
  end.

(** The intensity of a record for [target_class]; [None] and the empty
    string are both false in [if target_class]. *)
Definition class_intensity (target_class : option string)
    (item : detection_record) : Z :=
  match target_class with
  | Some c =>
      if Py.truthy c then default 0 (detection_counts item !! c)
      else total_detections item
  | None => total_detections item
  end.

(** The [heat_data] list of [create_class_specific_heatmap]. *)
Fixpoint class_heat_data (target_class : option string)
    (detection_data : list detection_record) : list weighted_point :=
  match detection_data with
  | [] => []
  | item :: rest =>
      let intensity := class_intensity target_class item in
      if 0 <? intensity
      then (latitude item, longitude item, intensity)
             :: class_heat_data target_class rest
      else class_heat_data target_class rest
  end.

(** The markers of [create_class_specific_heatmap]: a second pass over the
    records. *)
Fixpoint class_markers (target_class : option string)
    (detection_data : list detection_record) : list marker :=
  match detection_data with
  | [] => []
  | item :: rest =>
      let intensity := class_intensity target_class item in
      if 0 <? intensity
      then {| marker_location := (latitude item, longitude item);
              marker_radius := 3 + intensity * 2 |}
             :: class_markers target_class rest
      else class_markers target_class rest
  end.

Definition create_class_specific_heatmap (target_class : option string)
    (detection_data : list detection_record) : option folium_map :=
  match detection_data with
  | [] => None
  | _ =>
      let heat_data := class_heat_data target_class detection_data in
      Some {| location := center detection_data;
              heat_layer :=
                match heat_data with [] => None | _ => Some heat_data end;
              markers :=
                match heat_data with
                | [] => []
                | _ => class_markers target_class detection_data
                end |}
  end.

End Heatmap.

(** ** take_images.py: main *)

(** [str.lower] on code points below 256. *)
Definition str_lower_char (c : ascii) : ascii :=
  let n := nat_of_ascii c in
  if (((65 <=? n) && (n <=? 90))
      || ((192 <=? n) && (n <=? 222) && negb (n =? 215)))%nat
  then ascii_of_nat (n + 32) else c.

Fixpoint str_lower (s : string) : string :=
  match s with
  | EmptyString => EmptyString
  | String c s' => String (str_lower_char c) (str_lower s')
  end.

(** How [main] ends: with a call of [add_gps_to_image], which is handed the
    position and builds the GPS block from it, or without one. *)
Inductive tagging : Type :=
  | Tagged (lat lon : Q) (block : gps_tags)
  | NotTagged.

Section TakeImagesMain.

Variable rnd : Q -> Q.

(** Step 2 of [main]: the position comes from the device.  The second
    component is what [read_gps] left of the port. *)
Definition tag_from_device (device : option (list read_event))
  : option (tagging * option (option port)) :=
  match read_gps rnd device with
  | Some (o, p) =>
      match returned o with
      | Some (lat, lon) => Some (Tagged lat lon (gps_ifd rnd lat lon), Some p)
      | None => Some (NotTagged, Some p)
      end
  | None => None
  end.

(** [main] of take_images.py.  Its inputs are the tags of the image, what
    the user types at the prompt and the serial device; the second component
    of the result is [None] when [read_gps] was not called. *)
Definition take_images_main (tags : option gps_tags) (answer : string)
    (device : option (list read_event))
  : option (tagging * option (option port)) :=
  match read_existing_gps_from_image rnd tags with
  | Some (lat, lon) =>
      let use_existing := str_lower answer in
      if String.eqb use_existing "s"
      then Some (Tagged lat lon (gps_ifd rnd lat lon), None)
      else tag_from_device device
  | None => tag_from_device device
  end.

End TakeImagesMain.

(** ** main.py: the folder and the summary *)

(** [os.path.join(a, b)] on POSIX paths. *)
Definition path_join (a b : string) : string :=
  if Py.startswith b "/" then b
  else if negb (Py.truthy a) then b
  else if String.eqb (String.substring (String.length a - 1) 1 a) "/"
       then a ++ b
       else a ++ "/" ++ b.

Definition default_extensions : list string :=
  ["*.jpg"; "*.jpeg"; "*.png"; "*.JPG"; "*.JPEG"].

(** What [process_single_image] meets for one path: the tags of the file,
    whether it decodes, what the model infers. *)
Record image_source : Type := {
  source_tags : option gps_tags;
  source_decodes : bool;
  source_inference : result (list prediction)
}.

Section Folder.

Variable rnd : Q -> Q.

(** The file system: what [glob.glob] returns for a pattern, and what is
    behind a path. *)
Variable glob : string -> list string.
Variable source : string -> image_source.

(** The first loop of [process_image_folder]. *)
Definition image_files (folder_path : string) (extensions : list string)
  : list string :=
  fold_left (fun files ext => files ++ glob (path_join folder_path ext))
            extensions [].

(** The second loop: [clock] is what [datetime.now().isoformat()] gives
    while the image at each position is processed. *)
Fixpoint process_files (clock : nat -> string) (position : nat)
    (files : list string) (detection_data : list detection_record)
  : list detection_record :=
  match files with
  | [] => detection_data
  | image_path :: rest =>
      let src := source image_path in
      let result :=
        process_single_image rnd image_path (source_tags src)
          (source_decodes src) (source_inference src) (clock position) in
      process_files clock (S position) rest
        match result with
        | Some r => detection_data ++ [r]
        | None => detection_data
        end
  end.

(** [process_image_folder]: the new value of [self.detection_data]. *)
Definition process_image_folder (clock : nat -> string)
    (folder_path : string) (extensions : list string)
    (detection_data : list detection_record) : list detection_record :=
  match image_files folder_path extensions with
  | [] => detection_data
  | files => process_files clock 0 files detection_data
  end.

End Folder.

(** The loop body of the class count in [get_detection_summary]. *)
Definition add_class_count (class_name : string) (count : Z)
    (all_classes : gmap string Z) : gmap string Z :=
  <[class_name := default 0 (all_classes !! class_name) + count]> all_classes.

(** What [get_detection_summary] computes before it prints. *)
Record summary : Type := {
  total_images : Z;
  summary_total_detections : Z;
  all_classes : gmap string Z;
  average_detections : Q
}.

Section Summary.

Variable rnd : Q -> Q.

Definition get_detection_summary (detection_data : list detection_record)
  : option summary :=
  match detection_data with
  | [] => None
  | _ =>
      let total_images := Z.of_nat (length detection_data) in
      let total_detections :=
        fold_left (fun acc item => acc + total_detections item)
                  detection_data 0 in
      let all_classes :=
        fold_left (fun classes item =>
                     map_fold add_class_count classes (detection_counts item))
                  detection_data ∅ in
      Some {| total_images := total_images;
              summary_total_detections := total_detections;
              all_classes := all_classes;
              average_detections :=
                rnd (inject_Z total_detections / inject_Z total_images)%Q |}
  end.

End Summary.

(** * Vocabulary of the statements *)

(** [parse_nmea_coordinate] without the test on the number of digits before
    the point: one decoding for both layouts. *)
Definition parse_nmea_coordinate_one_layout (rnd : Q -> Q)
    (coord_str direction : string) : result (option Q) :=
  if negb (Py.truthy coord_str) then Ok None
  else
    let* coord_float := float_of_string rnd coord_str in
    match coord_float with
    | NonFinite => Raise ValueError
    | Finite coord_float =>
        let degrees := int_of_float (ffloordiv rnd coord_float 100) in
        let minutes := fmod rnd coord_float 100 in
        let decimal_degrees :=
          fadd rnd (float_of_int rnd degrees) (fdiv rnd minutes 60) in
        Ok (Some (if in_S_W direction then (- decimal_degrees)%Q
                  else decimal_degrees))
    end.

(** Negation of a decoded coordinate, where there is one. *)
Definition negated (r : result (option Q)) : result (option Q) :=
  match r with
  | Ok (Some v) => Ok (Some (- v)%Q)
  | _ => r
  end.

(** The same tags with other hemisphere references. *)
Definition with_refs (tags : gps_tags) (lat_ref lon_ref : option string)
  : gps_tags :=
  {| GPSLatitude := GPSLatitude tags;
     GPSLongitude := GPSLongitude tags;
     GPSLatitudeRef := lat_ref;
     GPSLongitudeRef := lon_ref |}.

Definition signed_by (south west : bool) (p : option (Q * Q))
  : option (Q * Q) :=
  match p with
  | Some (lat, lon) =>
      Some (if south then (- lat)%Q else lat, if west then (- lon)%Q else lon)
  | None => None
  end.

(** A line that [read_gps] looks at. *)
Definition recognized (line : string) : bool :=
  Py.startswith line "$GPGGA" || Py.startswith line "$GNGGA".

(** The line the loop sees for the bytes [b]. *)
Definition line_of (b : string) : string :=
  Py.strip (Py.decode_ascii_ignore b).

(** A GGA sentence with a fix, and the same sentence spoilt in one field. *)
Definition gga_fix : string :=
  "$GPGGA,123519,4807.038,N,01131.000,E,1,08,0.9,545.4,M,46.9,M,,*47".
Definition gga_no_fix : string :=
  "$GPGGA,123519,4807.038,N,01131.000,E,0,08,0.9,545.4,M,46.9,M,,*47".
Definition gga_bad_latitude : string :=
  "$GPGGA,123519,abc,N,01131.000,E,1,08,0.9,545.4,M,46.9,M,,*47".
Definition gga_bad_quality : string :=
  "$GPGGA,123519,4807.038,N,01131.000,E,x,08,0.9,545.4,M,46.9,M,,*47".

Definition opened (incoming : list read_event) : loop_state :=
  {| attempts := 0; ser := {| pending := incoming; is_open := true |} |}.

(** An image taken at 48.1173 N, 11.5167 E, and three detections. *)
Definition sample_tags : gps_tags :=
  {| GPSLatitude := Some [(48, 1); (7, 1); (2280, 1000)];
     GPSLongitude := Some [(11, 1); (31, 1); (120, 1000)];
     GPSLatitudeRef := Some "N";
     GPSLongitudeRef := Some "E" |}.

Definition sample_predictions : list prediction :=
  [ {| class_id := 0; class_name := Some "cherry" |};
    {| class_id := 1; class_name := Some "leaf" |};
    {| class_id := 0; class_name := Some "cherry" |} ].

(** [item['detection_counts'].get(c, 0)] *)
Definition count_of (c : string) (item : detection_record) : Z :=
  default 0 (detection_counts item !! c).

Definition intensity_of (p : weighted_point) : Z := snd p.

(** Two records: one image with three detections, one with none. *)
Definition sample_records : list detection_record :=
  [ {| image_path := "a.jpg";
       latitude := 481173 # 10000; longitude := 115167 # 10000;
       total_detections := 3;
       detection_counts := <["cherry" := 2]> (<["leaf" := 1]> ∅);
       timestamp := "2024-01-01T00:00:00" |};
    {| image_path := "b.jpg";
       latitude := 481180 # 10000; longitude := 115170 # 10000;
       total_detections := 0;
       detection_counts := ∅;
       timestamp := "2024-01-01T00:00:05" |} ].

Local Open Scope Q_scope.

Definition rounding_slack : Q := 1 # 10000000000.

(** The unsigned value [parse_nmea_coordinate] computes from the float
    [c]. *)
Definition nmea_magnitude (rnd : Q -> Q) (c : Q) : Q :=
  fadd rnd (float_of_int rnd (int_of_float (ffloordiv rnd c 100)))
           (fdiv rnd (fmod rnd c 100) 60).



Local Open Scope Z_scope.

(** An event that costs one attempt and nothing else. *)
Definition gives_no_fix (rnd : Q -> Q) (ev : read_event) : bool :=
  match ev with
  | Bytes b =>
      match examine_line rnd (line_of b) with
      | NoFix => true
      | _ => false
      end
  | ReadFails => false
  end.

(** The fields of a sentence that gives a fix. *)
Definition fix_fields (rnd : Q -> Q) (line : string) (lat lon : Q) : Prop :=
  let parts := Py.split "," line in
  exists (quality lat_str lat_dir lon_str lon_dir : string) (q : Z),
    nth_error parts 6 = Some quality
    /\ Py.int quality = Ok q /\ 0 < q
    /\ nth_error parts 2 = Some lat_str /\ nth_error parts 3 = Some lat_dir
    /\ nth_error parts 4 = Some lon_str /\ nth_error parts 5 = Some lon_dir
    /\ lat_str <> "" /\ lon_str <> "" /\ lat_dir <> "" /\ lon_dir <> ""
    /\ parse_nmea_coordinate rnd lat_str lat_dir = Ok (Some lat)
    /\ parse_nmea_coordinate rnd lon_str lon_dir = Ok (Some lon).

(** Strings of white space only. *)
Fixpoint all_space (s : string) : bool :=
  match s with
  | EmptyString => true
  | String c s' => Py.is_space c && all_space s'
  end.

(** A byte that [decode('ascii', errors='ignore')] drops. *)
Definition high_byte (c : ascii) : bool :=
  negb (Z.of_nat (nat_of_ascii c) <? 128).

Definition crlf : string := String "013" (String "010" "").

(** Three rationals, none with a zero denominator, are what the reader
    needs of a tag. *)
Definition dms_readable (vals : list rational) : bool :=
  match vals with
  | (_, d0) :: (_, d1) :: (_, d2) :: _ =>
      negb (d0 =? 0) && negb (d1 =? 0) && negb (d2 =? 0)
  | _ => false
  end.

(** The number of detections with class id [c]. *)
Definition occurrences (c : Z) (class_ids : list Z) : Z :=
  Z.of_nat (count_occ Z.eq_dec class_ids c).

Definition unnamed_predictions : list prediction :=
  [ {| class_id := 2; class_name := None |};
    {| class_id := 7; class_name := Some "leaf" |};
    {| class_id := 2; class_name := None |} ].

(** The records of the images that can be processed, in the order of the
    files. *)
Fixpoint records_of (rnd : Q -> Q) (source : string -> image_source)
    (clock : nat -> string) (position : nat) (files : list string)
  : list detection_record :=
  match files with
  | [] => []
  | image_path :: rest =>
      let src := source image_path in
      match process_single_image rnd image_path (source_tags src)
              (source_decodes src) (source_inference src) (clock position) with
      | Some r => r :: records_of rnd source clock (S position) rest
      | None => records_of rnd source clock (S position) rest
      end
  end.

(** The invariant of a record. *)
Definition consistent (r : detection_record) : Prop :=
  total_detections r = sum_values (detection_counts r).

(** The sums the summary is compared with. *)
Definition total_of (detection_data : list detection_record) : Z :=
  fold_right (fun item acc => total_detections item + acc) 0 detection_data.

Definition class_total_of (c : string) (detection_data : list detection_record)
  : Z :=
  fold_right (fun item acc => count_of c item + acc) 0 detection_data.

(** The marker drawn for a weighted point of a class view. *)
Definition marker_of (p : weighted_point) : marker :=
  let '(lat, lon, intensity) := p in
  {| marker_location := (lat, lon); marker_radius := 3 + intensity * 2 |}.

(** A folder with two pictures: one tagged, one not. *)
Definition sample_glob (pattern : string) : list string :=
  if String.eqb pattern "photos/*.jpg" then ["photos/a.jpg"; "photos/b.jpg"]
  else [].

Definition sample_source (path : string) : image_source :=
  if String.eqb path "photos/a.jpg" then
    {| source_tags := Some sample_tags; source_decodes := true;
       source_inference := Ok sample_predictions |}
  else
    {| source_tags := None; source_decodes := true;
       source_inference := Ok [] |}.

Definition sample_clock (position : nat) : string := "2024-01-01T00:00:00".

(** The separators 28 to 31: white space for [str.strip], not for [int]
    and [float]. *)
Definition is_separator (c : ascii) : bool :=
  let n := Z.of_nat (nat_of_ascii c) in (28 <=? n) && (n <=? 31).

(** A sentence with a fix whose quality field starts with a separator. *)
Definition gga_separator_in_quality : string :=
  String.append "$GPGGA,123519,4807.038,N,01131.000,E,"
    (String "031" "1,08,0.9,545.4,M,46.9,M,,*47").

(** * Properties *)

(** ** Numeric text *)

Lemma separator_cases (c : ascii) :
  is_separator c = true ->
  c = "028"%char \/ c = "029"%char \/ c = "030"%char \/ c = "031"%char.
Proof.
  unfold is_separator. intros H.
  apply andb_prop in H. destruct H as [H1 H2].
  apply Z.leb_le in H1, H2.
  rewrite <- (ascii_nat_embedding c).
  assert (Hn : (nat_of_ascii c = 28 \/ nat_of_ascii c = 29
                \/ nat_of_ascii c = 30 \/ nat_of_ascii c = 31)%nat) by lia.
  destruct Hn as [E|[E|[E|E]]]; rewrite E; auto.
Qed.

Lemma numeric_text_keeps_separator (c : ascii) (s : string) :
  is_separator c = true ->
  exists r : string, Py.numeric_text (String c s) = String c r.
Proof.
  intros H. unfold Py.numeric_text.
  assert (Ht : exists t, (if Py.is_ascii (String c s) then String c s
                          else Py.to_ascii_text (String c s)) = String c t).
  { destruct (Py.is_ascii (String c s)); [eexists; reflexivity|].
    destruct (separator_cases c H) as [E|[E|[E|E]]]; subst c;
      eexists; reflexivity. }
  destruct Ht as [t Et]. rewrite Et.
  assert (Hl : Py.lstrip_c (String c t) = String c t).
  { destruct (separator_cases c H) as [E|[E|[E|E]]]; subst c; reflexivity. }
  rewrite Hl. cbn [Py.rstrip_c].
  destruct (Py.rstrip_c t) as [|c' r'].
  - destruct (separator_cases c H) as [E|[E|[E|E]]]; subst c;
      eexists; reflexivity.
  - eexists; reflexivity.
Qed.

(** [str.strip] removes a separator, [int] and [float] do not skip it: a
    text that starts with one is not a number. *)
Lemma separators_are_not_skipped (rnd : Q -> Q) (c : ascii) (s : string) :
  is_separator c = true ->
  Py.is_space c = true
  /\ Py.int (String c s) = Raise ValueError
  /\ float_of_string rnd (String c s) = Raise ValueError.
Proof.
  intros H. destruct (numeric_text_keeps_separator c s H) as [r Hr].
  unfold Py.int, float_of_string. rewrite Hr.
  destruct (separator_cases c H) as [E|[E|[E|E]]]; subst c;
    repeat split; reflexivity.
Qed.

(** The no-break space and the next-line character are skipped. *)
Lemma no_break_space_is_skipped :
  Py.int (String "160" " 1") = Ok 1
  /\ Py.int (String "133" "1") = Ok 1
  /\ (exists v : Q,
        float_of_string binary64 (String "160" "1.5") = Ok (Finite v)
        /\ (v == 3 # 2)%Q).
Proof.
  split; [vm_compute; reflexivity|]. split; [vm_compute; reflexivity|].
  eexists. split; vm_compute; reflexivity.
Qed.

Lemma int_refuses_long_literals :
  (exists v : Z, Py.int (string_of_list_ascii (repeat "1"%char 4300)) = Ok v)
  /\ Py.int (string_of_list_ascii (repeat "1"%char 4301)) = Raise ValueError.
Proof. split; [eexists|]; vm_compute; reflexivity. Qed.

(** Floor division rounds where the interpreter does: the quotient of
    288278024071933696 by 100 is 2882780240719335, not the whole part of
    the exact quotient; a negative dividend takes the sign of the
    divisor. *)
Lemma floor_division_is_rounded :
  (ffloordiv binary64 288278024071933696 100 == 2882780240719335)%Q
  /\ (fmod binary64 288278024071933696 100 == 96)%Q
  /\ (ffloordiv binary64 (- (1 # 2)) 100 == -1)%Q
  /\ (fmod binary64 (- (1 # 2)) 100 == 199 # 2)%Q.
Proof. repeat split; vm_compute; reflexivity. Qed.

(** A separator in the quality field is not stripped with the line: [int]
    raises outside the inner [try]. *)
Lemma separator_in_quality_escapes (rnd : Q -> Q) :
  examine_line rnd (line_of gga_separator_in_quality) = Escapes ValueError.
Proof. vm_compute. reflexivity. Qed.

(** ** The NMEA decoder *)

Lemma truthy_empty_eqb (s : string) :
  negb (Py.truthy s) || String.eqb s "" = negb (Py.truthy s).
Proof. destruct s; reflexivity. Qed.

Lemma parse_nmea_coordinate_unfold (rnd : Q -> Q) (s dir : string) :
  parse_nmea_coordinate rnd s dir = parse_nmea_coordinate_one_layout rnd s dir.
Proof.
  unfold parse_nmea_coordinate, parse_nmea_coordinate_one_layout.
  rewrite truthy_empty_eqb.
  destruct (negb (Py.truthy s)); [reflexivity|].
  destruct (float_of_string rnd s) as [[c|]|e]; simpl; try reflexivity.
  unfold latitude_layout, longitude_layout.
  destruct (Py.len _ =? 4); reflexivity.
Qed.

(** C10: the test on the width of the degree field has no effect.  Both of
    its arms compute the same degrees and minutes, so for every string and
    direction [parse_nmea_coordinate] is the decoder with a single layout;
    and the empty string gives [None], not a number. *)
Theorem degree_width_test_has_no_effect (rnd : Q -> Q) :
  (forall c : Q, latitude_layout rnd c = longitude_layout rnd c) /\
  (forall c : Q,
     latitude_layout rnd c
     = (int_of_float (ffloordiv rnd c 100), fmod rnd c 100)) /\
  (forall s dir : string,
     parse_nmea_coordinate rnd s dir
     = parse_nmea_coordinate_one_layout rnd s dir) /\
  (forall dir : string, parse_nmea_coordinate rnd "" dir = Ok None).
Proof.
  repeat split.
  - apply parse_nmea_coordinate_unfold.
Qed.

Lemma parse_nmea_coordinate_direction (rnd : Q -> Q) (s dir : string) :
  parse_nmea_coordinate rnd s dir
  = if in_S_W dir then negated (parse_nmea_coordinate rnd s "")
    else parse_nmea_coordinate rnd s "".
Proof.
  rewrite !parse_nmea_coordinate_unfold.
  unfold parse_nmea_coordinate_one_layout.
  destruct (negb (Py.truthy s)); [destruct (in_S_W dir); reflexivity|].
  destruct (float_of_string rnd s) as [[c|]|e]; simpl;
    destruct (in_S_W dir); reflexivity.
Qed.

Lemma read_gps_from_image_refs (rnd : Q -> Q) (tags : gps_tags)
    (lat_ref lon_ref : option string) :
  read_gps_from_image rnd (Some (with_refs tags lat_ref lon_ref))
  = signed_by (String.eqb (ref_of lat_ref) "S") (String.eqb (ref_of lon_ref) "W")
      (read_gps_from_image rnd (Some (with_refs tags None None))).
Proof.
  unfold read_gps_from_image, read_existing_gps_from_image; simpl.
  destruct (GPSLatitude tags) as [la|]; [|reflexivity].
  destruct (GPSLongitude tags) as [lo|]; [|reflexivity].
  destruct (dms_to_decimal rnd la) as [lat|]; [|reflexivity]; simpl.
  destruct (dms_to_decimal rnd lo) as [lon|]; reflexivity.
Qed.

(** The value of a string that [float] reads as a finite number: degrees
    plus minutes over 60, with the sign of the direction. *)
Lemma parse_nmea_coordinate_value (rnd : Q -> Q) (s dir : string) (c : Q) :
  Py.truthy s = true ->
  float_of_string rnd s = Ok (Finite c) ->
  parse_nmea_coordinate rnd s dir
  = Ok (Some (if in_S_W dir then (- nmea_magnitude rnd c)%Q
              else nmea_magnitude rnd c)).
Proof.
  intros Ht Hf. rewrite parse_nmea_coordinate_unfold.
  unfold parse_nmea_coordinate_one_layout. rewrite Ht, Hf. reflexivity.
Qed.

(** Three rationals with denominators that are not zero are read as a
    number. *)
Lemma dms_to_decimal_defined (rnd : Q -> Q) (d m s : rational) :
  snd d <> 0 -> snd m <> 0 -> snd s <> 0 ->
  exists v : Q, dms_to_decimal rnd [d; m; s] = Ok v.
Proof.
  destruct d as [nd dd], m as [nm dm], s as [ns ds]. cbn [snd].
  intros Hd Hm Hs. unfold dms_to_decimal, item, float_of_ratio.
  cbn [nth_error bind].
  apply Z.eqb_neq in Hd, Hm, Hs. rewrite Hd. cbn [bind].
  rewrite Hm. cbn [bind]. rewrite Hs. cbn [bind].
  eexists. reflexivity.
Qed.

Lemma read_gps_from_image_value (rnd : Q -> Q) (tags : gps_tags)
    (lat_vals lon_vals : list rational) (lat lon : Q)
    (lat_ref lon_ref : option string) :
  GPSLatitude tags = Some lat_vals ->
  GPSLongitude tags = Some lon_vals ->
  dms_to_decimal rnd lat_vals = Ok lat ->
  dms_to_decimal rnd lon_vals = Ok lon ->
  read_gps_from_image rnd (Some (with_refs tags lat_ref lon_ref))
  = Some (if String.eqb (ref_of lat_ref) "S" then (- lat)%Q else lat,
          if String.eqb (ref_of lon_ref) "W" then (- lon)%Q else lon).
Proof.
  intros Hla Hlo Hlat Hlon.
  unfold read_gps_from_image, read_existing_gps_from_image, with_refs.
  cbn [GPSLatitude GPSLongitude GPSLatitudeRef GPSLongitudeRef].
  rewrite Hla, Hlo, Hlat, Hlon. reflexivity.
Qed.

(** C5: the hemisphere sign.  For every NMEA string, direction [S] or [W]
    gives exactly the negation of what [N] or [E] gives, and [N], [E] and
    the empty direction give the same, unsigned, value.  For every triple of
    EXIF rationals, reference [S] negates the latitude read with [N], [W]
    negates the longitude read with [E], and [N], [E] or a missing reference
    leave the value as it is.  A value is there to be negated: a non-empty
    string that [float] reads as the finite number [c] gives degrees plus
    minutes over 60 of [c] with [N], [E] and the empty direction, and its
    opposite with [S] and [W]; two triples of rationals with denominators
    that are not zero give a latitude and a longitude, which come back as
    they are with [N] and [E] or without references, and with the opposite
    sign under [S] and under [W]. *)
Theorem hemisphere_sign (rnd : Q -> Q) :
  (forall s : string,
     parse_nmea_coordinate rnd s "S" = negated (parse_nmea_coordinate rnd s "N")
     /\ parse_nmea_coordinate rnd s "W"
        = negated (parse_nmea_coordinate rnd s "E")) /\
  (forall s : string,
     parse_nmea_coordinate rnd s "N" = parse_nmea_coordinate rnd s ""
     /\ parse_nmea_coordinate rnd s "E" = parse_nmea_coordinate rnd s "") /\
  (forall (tags : gps_tags) (lon_ref : option string),
     read_gps_from_image rnd (Some (with_refs tags (Some "S") lon_ref))
     = signed_by true false
         (read_gps_from_image rnd (Some (with_refs tags (Some "N") lon_ref)))) /\
  (forall (tags : gps_tags) (lat_ref : option string),
     read_gps_from_image rnd (Some (with_refs tags lat_ref (Some "W")))
     = signed_by false true
         (read_gps_from_image rnd (Some (with_refs tags lat_ref (Some "E"))))) /\
  (forall tags : gps_tags,
     read_gps_from_image rnd (Some (with_refs tags (Some "N") (Some "E")))
     = read_gps_from_image rnd (Some (with_refs tags None None))
     /\ read_gps_from_image rnd (Some (with_refs tags (Some "") (Some "")))
        = read_gps_from_image rnd (Some (with_refs tags None None))) /\
  (forall (s : string) (c : Q),
     Py.truthy s = true ->
     float_of_string rnd s = Ok (Finite c) ->
     parse_nmea_coordinate rnd s "N" = Ok (Some (nmea_magnitude rnd c))
     /\ parse_nmea_coordinate rnd s "E" = Ok (Some (nmea_magnitude rnd c))
     /\ parse_nmea_coordinate rnd s "" = Ok (Some (nmea_magnitude rnd c))
     /\ parse_nmea_coordinate rnd s "S"
        = Ok (Some (- nmea_magnitude rnd c)%Q)
     /\ parse_nmea_coordinate rnd s "W"
        = Ok (Some (- nmea_magnitude rnd c)%Q)) /\
  (forall (tags : gps_tags) (d m s d' m' s' : rational),
     GPSLatitude tags = Some [d; m; s] ->
     GPSLongitude tags = Some [d'; m'; s'] ->
     snd d <> 0 -> snd m <> 0 -> snd s <> 0 ->
     snd d' <> 0 -> snd m' <> 0 -> snd s' <> 0 ->
     exists lat lon : Q,
       dms_to_decimal rnd [d; m; s] = Ok lat
       /\ dms_to_decimal rnd [d'; m'; s'] = Ok lon
       /\ read_gps_from_image rnd (Some (with_refs tags (Some "N") (Some "E")))
          = Some (lat, lon)
       /\ read_gps_from_image rnd (Some (with_refs tags None None))
          = Some (lat, lon)
       /\ read_gps_from_image rnd (Some (with_refs tags (Some "S") (Some "E")))
          = Some ((- lat)%Q, lon)
       /\ read_gps_from_image rnd (Some (with_refs tags (Some "N") (Some "W")))
          = Some (lat, (- lon)%Q)
       /\ read_gps_from_image rnd (Some (with_refs tags (Some "S") (Some "W")))
          = Some ((- lat)%Q, (- lon)%Q)).
Proof.
  split; [|split; [|split; [|split; [|split; [|split]]]]].
  - intros s.
    rewrite (parse_nmea_coordinate_direction rnd s "S"),
      (parse_nmea_coordinate_direction rnd s "N"),
      (parse_nmea_coordinate_direction rnd s "W"),
      (parse_nmea_coordinate_direction rnd s "E").
    split; reflexivity.
  - intros s.
    rewrite (parse_nmea_coordinate_direction rnd s "N"),
      (parse_nmea_coordinate_direction rnd s "E").
    split; reflexivity.
  - intros tags lon_ref.
    rewrite (read_gps_from_image_refs rnd tags (Some "S")),
      (read_gps_from_image_refs rnd tags (Some "N")).
    destruct (read_gps_from_image rnd _) as [[lat lon]|]; simpl; [|reflexivity].
    destruct (String.eqb (ref_of lon_ref) "W"); reflexivity.
  - intros tags lat_ref.
    rewrite (read_gps_from_image_refs rnd tags lat_ref (Some "W")),
      (read_gps_from_image_refs rnd tags lat_ref (Some "E")).
    destruct (read_gps_from_image rnd _) as [[lat lon]|]; simpl; [|reflexivity].
    destruct (String.eqb (ref_of lat_ref) "S"); reflexivity.
  - intros tags.
    rewrite (read_gps_from_image_refs rnd tags (Some "N") (Some "E")),
      (read_gps_from_image_refs rnd tags (Some "") (Some "")).
    destruct (read_gps_from_image rnd _) as [[lat lon]|]; split; reflexivity.
  - intros s c Ht Hf.
    rewrite !(parse_nmea_coordinate_value rnd s _ c Ht Hf).
    repeat split; reflexivity.
  - intros tags d m s d' m' s' Hla Hlo Hd Hm Hs Hd' Hm' Hs'.
    destruct (dms_to_decimal_defined rnd d m s Hd Hm Hs) as [lat Hlat].
    destruct (dms_to_decimal_defined rnd d' m' s' Hd' Hm' Hs') as [lon Hlon].
    exists lat, lon.
    rewrite !(read_gps_from_image_value rnd tags _ _ lat lon _ _
                Hla Hlo Hlat Hlon).
    repeat split; assumption.
Qed.

Lemma hemisphere_sign_witness :
  (parse_nmea_coordinate binary64 "4807.038" "N"
   = Ok (Some (nmea_magnitude binary64 (binary64 (4807038 # 1000))))
   /\ parse_nmea_coordinate binary64 "4807.038" "S"
      = Ok (Some (- nmea_magnitude binary64 (binary64 (4807038 # 1000)))%Q))
  /\ (exists lat lon : Q,
        read_gps_from_image binary64
          (Some (with_refs sample_tags (Some "N") (Some "E")))
        = Some (lat, lon)
        /\ read_gps_from_image binary64
             (Some (with_refs sample_tags (Some "S") (Some "W")))
           = Some ((- lat)%Q, (- lon)%Q)).
Proof.
  destruct (hemisphere_sign binary64) as (_ & _ & _ & _ & _ & Hnmea & Hexif).
  split.
  - assert (Hf : float_of_string binary64 "4807.038"
                 = Ok (Finite (binary64 (4807038 # 1000))))
      by (vm_compute; reflexivity).
    destruct (Hnmea "4807.038" (binary64 (4807038 # 1000)) eq_refl Hf)
      as (HN & _ & _ & HS & _).
    split; [exact HN | exact HS].
  - destruct (Hexif sample_tags (48, 1) (7, 1) (2280, 1000)
                (11, 1) (31, 1) (120, 1000) eq_refl eq_refl)
      as (lat & lon & _ & _ & HNE & _ & _ & _ & HSW); try (cbn [snd]; lia).
    exists lat, lon. split; [exact HNE | exact HSW].
Defined.

(** C4: the two NMEA examples, in binary64 arithmetic and in exact
    arithmetic: ["4807.038"] north is 48.1173 and ["01131.000"] east is
    11.5167, both to the four decimals shown. *)
Theorem parse_nmea_coordinate_examples :
  (exists lat lon : Q,
     parse_nmea_coordinate binary64 "4807.038" "N" = Ok (Some lat)
     /\ parse_nmea_coordinate binary64 "01131.000" "E" = Ok (Some lon)
     /\ (Qabs (lat - (481173 # 10000)) <= (5 # 100000))%Q
     /\ (Qabs (lon - (115167 # 10000)) <= (5 # 100000))%Q) /\
  (exists lat lon : Q,
     parse_nmea_coordinate exact "4807.038" "N" = Ok (Some lat)
     /\ parse_nmea_coordinate exact "01131.000" "E" = Ok (Some lon)
     /\ (lat == (481173 # 10000))%Q
     /\ (Qabs (lon - (115167 # 10000)) <= (5 # 100000))%Q).
Proof.
  split.
  - eexists; eexists.
    split; [vm_compute; reflexivity|].
    split; [vm_compute; reflexivity|].
    split; vm_compute; discriminate.
  - eexists; eexists.
    split; [vm_compute; reflexivity|].
    split; [vm_compute; reflexivity|].
    split; [vm_compute; reflexivity|vm_compute; discriminate].
Qed.

(** ** Fix acquisition *)

Lemma loop_body_bytes (rnd : Q -> Q) (st : loop_state) (b : string)
    (rest : list read_event) :
  pending (ser st) = Bytes b :: rest ->
  loop_body rnd st =
  let ser' := {| pending := rest; is_open := is_open (ser st) |} in
  match examine_line rnd (line_of b) with
  | GotFix lat lon => Return (Fixed lat lon) (close ser')
  | Escapes e => Return (UnexpectedError e) ser'
  | NoFix => Continue {| attempts := attempts st + 1; ser := ser' |}
  end.
Proof.
  intros Hp. unfold loop_body, readline. rewrite Hp. reflexivity.
Qed.

Lemma item_nth_error {A : Type} (l : list A) (i : nat) (x : A) :
  nth_error l i = Some x -> item l i = Ok x.
Proof. intros H. unfold item. rewrite H. reflexivity. Qed.

Lemma nth_error_length_le {A : Type} (l : list A) (i : nat) (x : A) :
  nth_error l i = Some x -> Z.of_nat (S i) <= Z.of_nat (length l).
Proof.
  intros H. assert (i < length l)%nat.
  { apply nth_error_Some. rewrite H. discriminate. }
  lia.
Qed.

Lemma has_valid_fix_quality (parts : list string) (quality : string) (q : Z) :
  nth_error parts 6 = Some quality ->
  Py.truthy quality = true ->
  Py.int quality = Ok q ->
  has_valid_fix parts = Ok (0 <? q).
Proof.
  intros Hn Ht Hq. unfold has_valid_fix.
  pose proof (nth_error_length_le _ _ _ Hn) as Hlen.
  destruct (7 <=? Z.of_nat (length parts)) eqn:E; [|lia].
  rewrite (item_nth_error _ _ _ Hn); simpl.
  rewrite Ht, Hq. reflexivity.
Qed.

Lemma examine_line_quality_zero (rnd : Q -> Q) (line : string) :
  nth_error (Py.split "," line) 6 = Some "0" ->
  examine_line rnd line = NoFix.
Proof.
  intros Hn. unfold examine_line.
  destruct (Py.startswith line "$GPGGA" || Py.startswith line "$GNGGA");
    [|reflexivity].
  rewrite (has_valid_fix_quality _ "0" 0 Hn eq_refl eq_refl). reflexivity.
Qed.

Lemma parse_nmea_coordinate_finite (rnd : Q -> Q) (s dir : string) (c : Q) :
  float_of_string rnd s = Ok (Finite c) ->
  Py.truthy s = true ->
  exists v : Q, parse_nmea_coordinate rnd s dir = Ok (Some v).
Proof.
  intros Hf Ht. rewrite parse_nmea_coordinate_unfold.
  unfold parse_nmea_coordinate_one_layout. rewrite Ht, Hf. simpl.
  eexists. reflexivity.
Qed.

Lemma examine_line_fix (rnd : Q -> Q) (line : string)
    (lat_str lat_dir lon_str lon_dir : string) (lat lon : Q) :
  recognized line = true ->
  nth_error (Py.split "," line) 6 = Some "1" ->
  nth_error (Py.split "," line) 2 = Some lat_str ->
  nth_error (Py.split "," line) 3 = Some lat_dir ->
  nth_error (Py.split "," line) 4 = Some lon_str ->
  nth_error (Py.split "," line) 5 = Some lon_dir ->
  Py.truthy lat_str && Py.truthy lon_str
    && Py.truthy lat_dir && Py.truthy lon_dir = true ->
  parse_nmea_coordinate rnd lat_str lat_dir = Ok (Some lat) ->
  parse_nmea_coordinate rnd lon_str lon_dir = Ok (Some lon) ->
  examine_line rnd line = GotFix lat lon.
Proof.
  intros Hr H6 H2 H3 H4 H5 Ht Hlat Hlon. unfold examine_line.
  unfold recognized in Hr. rewrite Hr.
  rewrite (has_valid_fix_quality _ "1" 1 H6 eq_refl eq_refl). simpl.
  unfold extract_coordinates.
  rewrite (item_nth_error _ _ _ H2), (item_nth_error _ _ _ H3),
    (item_nth_error _ _ _ H4), (item_nth_error _ _ _ H5). simpl.
  rewrite Ht, Hlat, Hlon. reflexivity.
Qed.

(** The loop ends: with enough fuel for the attempts that are left,
    [while_loop] gives a result. *)
Lemma while_loop_total (rnd : Q -> Q) (fuel : nat) (st : loop_state) :
  max_attempts - attempts st <= Z.of_nat fuel ->
  exists r, while_loop rnd fuel st = Some r.
Proof.
  revert st. induction fuel as [|fuel IH]; intros st Hfuel; simpl.
  - destruct (attempts st <? max_attempts) eqn:E; [lia|]. eexists; reflexivity.
  - destruct (attempts st <? max_attempts) eqn:E; [|eexists; reflexivity].
    destruct (loop_body rnd st) as [st'|o p] eqn:Hb; [|eexists; reflexivity].
    apply IH.
    unfold loop_body in Hb. destruct (readline (ser st)) as [[b|] p].
    + destruct (examine_line rnd _); inversion Hb; subst; simpl. lia.
    + discriminate.
Qed.

Lemma read_gps_total (rnd : Q -> Q) (device : option (list read_event)) :
  exists r, read_gps rnd device = Some r.
Proof.
  destruct device as [incoming|]; [|eexists; reflexivity].
  unfold read_gps.
  destruct (while_loop_total rnd (Z.to_nat max_attempts)
              {| attempts := 0;
                 ser := {| pending := incoming; is_open := true |} |})
    as [[o p] Hr].
  - simpl. unfold max_attempts. lia.
  - rewrite Hr. eexists; reflexivity.
Qed.

Lemma loop_body_port (rnd : Q -> Q) (st : loop_state) :
  match loop_body rnd st with
  | Continue st' =>
      is_open (ser st') = is_open (ser st)
      /\ attempts st' = attempts st + 1
  | Return (Fixed _ _) p => is_open p = false
  | Return TimedOut _ => False
  | Return _ p => is_open p = is_open (ser st)
  end.
Proof.
  unfold loop_body, readline.
  destruct (pending (ser st)) as [|[b|] rest].
  - destruct (examine_line rnd (Py.strip (Py.decode_ascii_ignore "")));
      simpl; auto.
  - destruct (examine_line rnd (Py.strip (Py.decode_ascii_ignore b)));
      simpl; auto.
  - reflexivity.
Qed.

(** On a fix and on the timeout the port has been closed; on the other two
    ways out it is as it was. *)
Lemma while_loop_closes (rnd : Q -> Q) (fuel : nat) (st : loop_state)
    (o : outcome) (p : port) :
  while_loop rnd fuel st = Some (o, p) ->
  match o with
  | Fixed _ _ | TimedOut => is_open p = false
  | DeviceError | UnexpectedError _ => is_open p = is_open (ser st)
  end.
Proof.
  revert st. induction fuel as [|fuel IH]; intros st; simpl.
  - destruct (attempts st <? max_attempts); [discriminate|].
    intros H; inversion H; subst. reflexivity.
  - destruct (attempts st <? max_attempts);
      [|intros H; inversion H; subst; reflexivity].
    pose proof (loop_body_port rnd st) as Hb.
    destruct (loop_body rnd st) as [st'|o' p']; intros H.
    + apply IH in H. destruct Hb as [Hb _].
      destruct o; try assumption; congruence.
    + inversion H; subst. destruct o; try assumption. contradiction.
Qed.

(** C3 (as amended): fix validation.  A sentence whose fix-quality field is
    ["0"] produces no fix: the loop goes on to the next attempt.  A
    recognized sentence whose fix-quality field is ["1"], whose four
    coordinate and direction fields are non-empty and whose two coordinate
    fields are numbers that [float] reads as finite, ends the loop with one
    fix, the port closed, and the coordinate is what
    [parse_nmea_coordinate] gives for those fields. *)
Theorem fix_validation (rnd : Q -> Q) (st : loop_state) (b : string)
    (rest : list read_event) :
  pending (ser st) = Bytes b :: rest ->
  let parts := Py.split "," (line_of b) in
  let ser' := {| pending := rest; is_open := is_open (ser st) |} in
  (nth_error parts 6 = Some "0" ->
   loop_body rnd st = Continue {| attempts := attempts st + 1; ser := ser' |})
  /\
  (forall (lat_str lat_dir lon_str lon_dir : string) (x y : Q),
     recognized (line_of b) = true ->
     nth_error parts 6 = Some "1" ->
     nth_error parts 2 = Some lat_str ->
     nth_error parts 3 = Some lat_dir ->
     nth_error parts 4 = Some lon_str ->
     nth_error parts 5 = Some lon_dir ->
     Py.truthy lat_str && Py.truthy lon_str
       && Py.truthy lat_dir && Py.truthy lon_dir = true ->
     float_of_string rnd lat_str = Ok (Finite x) ->
     float_of_string rnd lon_str = Ok (Finite y) ->
     exists lat lon : Q,
       parse_nmea_coordinate rnd lat_str lat_dir = Ok (Some lat)
       /\ parse_nmea_coordinate rnd lon_str lon_dir = Ok (Some lon)
       /\ loop_body rnd st = Return (Fixed lat lon) (close ser')).
Proof.
  intros Hp parts ser'. split.
  - intros H6. rewrite (loop_body_bytes rnd st b rest Hp).
    cbv zeta. rewrite (examine_line_quality_zero rnd _ H6). reflexivity.
  - intros lat_str lat_dir lon_str lon_dir x y Hr H6 H2 H3 H4 H5 Ht Hx Hy.
    apply andb_prop in Ht as [Ht Ht4]. apply andb_prop in Ht as [Ht Ht3].
    apply andb_prop in Ht as [Ht1 Ht2].
    destruct (parse_nmea_coordinate_finite rnd lat_str lat_dir x Hx Ht1)
      as [lat Hlat].
    destruct (parse_nmea_coordinate_finite rnd lon_str lon_dir y Hy Ht2)
      as [lon Hlon].
    exists lat, lon. split; [exact Hlat|]. split; [exact Hlon|].
    rewrite (loop_body_bytes rnd st b rest Hp). cbv zeta.
    rewrite (examine_line_fix rnd _ lat_str lat_dir lon_str lon_dir lat lon);
      try assumption; [reflexivity|].
    rewrite Ht1, Ht2, Ht3, Ht4. reflexivity.
Qed.

Lemma fix_validation_witness :
  loop_body binary64 (opened [Bytes gga_no_fix; Bytes gga_fix])
  = Continue {| attempts := 1;
                ser := {| pending := [Bytes gga_fix]; is_open := true |} |}
  /\ exists lat lon : Q,
       parse_nmea_coordinate binary64 "4807.038" "N" = Ok (Some lat)
       /\ parse_nmea_coordinate binary64 "01131.000" "E" = Ok (Some lon)
       /\ loop_body binary64 (opened [Bytes gga_fix])
          = Return (Fixed lat lon) {| pending := []; is_open := false |}.
Proof.
  split.
  - apply (fix_validation binary64 (opened [Bytes gga_no_fix; Bytes gga_fix])
             gga_no_fix [Bytes gga_fix] eq_refl).
    reflexivity.
  - apply (proj2 (fix_validation binary64 (opened [Bytes gga_fix])
                    gga_fix [] eq_refl)
             "4807.038" "N" "01131.000" "E"
             (binary64 (4807038 # 1000)) (binary64 (1131000 # 1000)));
      vm_compute; reflexivity.
Defined.

(** C3, as it was stated, fails: this recognized sentence has fix quality
    ["1"] and four non-empty coordinate and direction fields, and gives no
    fix; the acquisition that reads only it times out. *)
Lemma fix_quality_one_without_fix :
  recognized gga_bad_latitude = true
  /\ nth_error (Py.split "," gga_bad_latitude) 6 = Some "1"
  /\ nth_error (Py.split "," gga_bad_latitude) 2 = Some "abc"
  /\ nth_error (Py.split "," gga_bad_latitude) 3 = Some "N"
  /\ nth_error (Py.split "," gga_bad_latitude) 4 = Some "01131.000"
  /\ nth_error (Py.split "," gga_bad_latitude) 5 = Some "E"
  /\ examine_line binary64 gga_bad_latitude = NoFix
  /\ read_gps binary64 (Some [Bytes gga_bad_latitude])
     = Some (TimedOut, Some {| pending := []; is_open := false |}).
Proof. repeat split; vm_compute; reflexivity. Qed.

(** A line that gives no fix costs one attempt and the loop goes on; this
    is what happens to a sentence whose coordinates do not parse. *)
Lemma no_fix_advances (rnd : Q -> Q) (st : loop_state) (b : string)
    (rest : list read_event) :
  pending (ser st) = Bytes b :: rest ->
  examine_line rnd (line_of b) = NoFix ->
  loop_body rnd st
  = Continue {| attempts := attempts st + 1;
                ser := {| pending := rest; is_open := is_open (ser st) |} |}.
Proof.
  intros Hp Hl. rewrite (loop_body_bytes rnd st b rest Hp). cbv zeta.
  rewrite Hl. reflexivity.
Qed.

Example bad_latitude_then_fix :
  exists lat lon : Q,
    read_gps binary64 (Some [Bytes gga_bad_latitude; Bytes gga_fix])
    = Some (Fixed lat lon, Some {| pending := []; is_open := false |}).
Proof. eexists; eexists. vm_compute. reflexivity. Qed.

(** C7 (the code departs from it): the fix-quality field of the first
    sentence is not an integer.  [int] raises outside the inner [try], the
    outer handler ends [read_gps] with [None], and the valid sentence that
    follows is never read. *)
Theorem bad_quality_ends_acquisition (rnd : Q -> Q) :
  has_valid_fix (Py.split "," gga_bad_quality) = Raise ValueError
  /\ examine_line rnd gga_bad_quality = Escapes ValueError
  /\ read_gps rnd (Some [Bytes gga_bad_quality; Bytes gga_fix])
     = Some (UnexpectedError ValueError,
             Some {| pending := [Bytes gga_fix]; is_open := true |})
  /\ returned (UnexpectedError ValueError) = None.
Proof. repeat split. Qed.

(** Where the port is released: on a fix and on the timeout. *)
Lemma read_gps_releases_on_fix_and_timeout (rnd : Q -> Q)
    (incoming : list read_event) (o : outcome) (p : port) :
  read_gps rnd (Some incoming) = Some (o, Some p) ->
  match o with
  | Fixed _ _ | TimedOut => is_open p = false
  | DeviceError | UnexpectedError _ => is_open p = true
  end.
Proof.
  unfold read_gps.
  destruct (while_loop rnd (Z.to_nat max_attempts) _) as [[o' p']|] eqn:Hw;
    [|discriminate].
  intros H; inversion H; subst.
  apply while_loop_closes in Hw. exact Hw.
Qed.

(** C8 (the code departs from it): two acquisitions that end on an error
    after the port was opened, a read that raises and a fix-quality field
    that is not an integer; in both the port is still open when [read_gps]
    returns. *)
Theorem port_left_open_on_error (rnd : Q -> Q) :
  read_gps rnd (Some [ReadFails])
  = Some (DeviceError, Some {| pending := []; is_open := true |})
  /\ read_gps rnd (Some [Bytes gga_no_fix; Bytes gga_bad_quality])
     = Some (UnexpectedError ValueError,
             Some {| pending := []; is_open := true |}).
Proof. split; reflexivity. Qed.

(** ** Detection records *)

Lemma sum_values_comm (m : gmap string Z) (j1 j2 : string) (z1 z2 y : Z) :
  j1 ≠ j2 -> m !! j1 = Some z1 -> m !! j2 = Some z2 ->
  z1 + (z2 + y) = z2 + (z1 + y).
Proof. intros _ _ _. lia. Qed.

Lemma sum_values_empty : sum_values ∅ = 0.
Proof. unfold sum_values. apply map_fold_empty. Qed.

Lemma sum_values_insert_fresh (m : gmap string Z) (k : string) (x : Z) :
  m !! k = None -> sum_values (<[k:=x]> m) = x + sum_values m.
Proof.
  intros Hk. unfold sum_values.
  apply (map_fold_insert_L (fun (_ : string) (v acc : Z) => v + acc));
    [apply sum_values_comm | exact Hk].
Qed.

Lemma sum_values_delete (m : gmap string Z) (k : string) (x : Z) :
  m !! k = Some x -> sum_values m = x + sum_values (delete k m).
Proof.
  intros Hk. unfold sum_values.
  apply (map_fold_delete_L (fun (_ : string) (v acc : Z) => v + acc));
    [apply sum_values_comm | exact Hk].
Qed.

(** Counting one more detection adds one to the sum of the counts. *)
Lemma sum_values_tally (m : gmap string Z) (name : string) :
  sum_values (tally m name) = sum_values m + 1.
Proof.
  unfold tally. destruct (m !! name) as [x|] eqn:Hk; simpl.
  - rewrite <- insert_delete_eq.
    rewrite sum_values_insert_fresh by apply lookup_delete_eq.
    rewrite (sum_values_delete m name x Hk). lia.
  - rewrite sum_values_insert_fresh by exact Hk. lia.
Qed.

Lemma count_loop_sum (predictions : list prediction) (class_ids : list Z) :
  forall counts counts' : gmap string Z,
    count_loop predictions class_ids counts = Ok counts' ->
    sum_values counts' = sum_values counts + Z.of_nat (length class_ids).
Proof.
  induction class_ids as [|class_id rest IH]; intros counts counts' H.
  - simpl in H. inversion H; subst. simpl. lia.
  - simpl in H. destruct (item predictions 0) as [first|e]; [|discriminate].
    simpl in H. apply IH in H. rewrite H, sum_values_tally.
    simpl length. lia.
Qed.

(** The loop does not fail when there is a first prediction. *)
Lemma count_loop_runs (first : prediction) (others : list prediction)
    (class_ids : list Z) (counts : gmap string Z) :
  exists counts' : gmap string Z,
    count_loop (first :: others) class_ids counts = Ok counts'.
Proof.
  revert counts. induction class_ids as [|class_id rest IH]; intros counts.
  - eexists; reflexivity.
  - simpl. apply IH.
Qed.

(** C2: the aggregation invariant.  Every record [process_single_image]
    produces, whatever list of detections the model returned (the empty
    list too), has [total_detections] equal to the sum of the values of
    [detection_counts]. *)
Theorem aggregation_invariant (rnd : Q -> Q) (path : string)
    (tags : option gps_tags) (decodes : bool)
    (inference : result (list prediction)) (now : string)
    (r : detection_record) :
  process_single_image rnd path tags decodes inference now = Some r ->
  total_detections r = sum_values (detection_counts r).
Proof.
  unfold process_single_image.
  destruct (read_gps_from_image rnd tags) as [[lat lon]|]; [|discriminate].
  destruct decodes; [|discriminate]. simpl.
  destruct inference as [predictions|e]; [|discriminate]. simpl.
  destruct (0 <? Z.of_nat (length (from_inference predictions))) eqn:E.
  - destruct (count_loop predictions (from_inference predictions) ∅)
      as [counts|e] eqn:Hc; [|discriminate].
    simpl. intros H; inversion H; subst; simpl.
    apply count_loop_sum in Hc. rewrite Hc, sum_values_empty. lia.
  - simpl. intros H; inversion H; subst; simpl.
    rewrite sum_values_empty. lia.
Qed.

(** A record is produced for every decodable image with a position, for
    every list of detections. *)
Lemma process_single_image_produces (rnd : Q -> Q) (path : string)
    (tags : option gps_tags) (predictions : list prediction) (now : string)
    (lat lon : Q) :
  read_gps_from_image rnd tags = Some (lat, lon) ->
  exists r : detection_record,
    process_single_image rnd path tags true (Ok predictions) now = Some r
    /\ total_detections r = Z.of_nat (length predictions).
Proof.
  intros Hg. unfold process_single_image. rewrite Hg. simpl.
  unfold from_inference. rewrite length_map.
  destruct predictions as [|first others].
  - simpl. eexists. split; reflexivity.
  - destruct (count_loop_runs first others
                (map class_id (first :: others)) ∅) as [counts Hc].
    replace (0 <? Z.of_nat (length (first :: others))) with true
      by (symmetry; apply Z.ltb_lt; simpl length; lia).
    rewrite Hc. simpl. eexists. split; reflexivity.
Qed.

Lemma aggregation_invariant_witness :
  exists r : detection_record,
    process_single_image binary64 "a.jpg" (Some sample_tags) true
      (Ok sample_predictions) "2024-01-01T00:00:00" = Some r
    /\ total_detections r = 3
    /\ total_detections r = sum_values (detection_counts r).
Proof.
  destruct (process_single_image_produces binary64 "a.jpg" (Some sample_tags)
              sample_predictions "2024-01-01T00:00:00"
              (binary64 (binary64 (48 + binary64 (7 / 60))
                         + binary64 (binary64 (2280 / 1000) / 3600))%Q)
              (binary64 (binary64 (11 + binary64 (31 / 60))
                         + binary64 (binary64 (120 / 1000) / 3600))%Q)
              eq_refl)
    as [r [Hr Ht]].
  exists r. split; [exact Hr|]. split; [exact Ht|].
  exact (aggregation_invariant binary64 _ _ _ _ _ r Hr).
Defined.

(** ** Weighted points *)

Lemma class_intensity_truthy (c : string) (item : detection_record) :
  Py.truthy c = true -> class_intensity (Some c) item = count_of c item.
Proof. intros Hc. unfold class_intensity. rewrite Hc. reflexivity. Qed.

Lemma class_heat_data_filter (c : string)
    (detection_data : list detection_record) :
  Py.truthy c = true ->
  class_heat_data (Some c) detection_data
  = map (fun item => (latitude item, longitude item, count_of c item))
      (List.filter (fun item => 0 <? count_of c item) detection_data).
Proof.
  intros Hc. induction detection_data as [|item rest IH]; [reflexivity|].
  cbn [class_heat_data List.filter]. rewrite (class_intensity_truthy c item Hc).
  destruct (0 <? count_of c item); cbn [map]; rewrite IH; reflexivity.
Qed.

Lemma basic_heat_data_intensity (detection_data : list detection_record) :
  Forall (fun p => 1 <= intensity_of p) (basic_heat_data detection_data).
Proof.
  unfold basic_heat_data. apply Forall_map, Forall_forall.
  intros item _. unfold intensity_of. simpl. lia.
Qed.

(** C6: the weighted points of a non-empty collection.  The basic heat
    layer has one point per record, in order, with intensity
    [max(1, total_detections)]: every record is there and every intensity is
    at least 1.  For a target class the points are exactly the records whose
    count for that class is positive, in order, with that count as
    intensity. *)
Theorem heatmap_inclusion (rnd : Q -> Q)
    (detection_data : list detection_record) (c : string) :
  detection_data <> [] ->
  Py.truthy c = true ->
  (exists m : folium_map,
     create_basic_heatmap rnd detection_data = Some m
     /\ heat_layer m = Some (basic_heat_data detection_data))
  /\ basic_heat_data detection_data
     = map (fun item => (latitude item, longitude item,
                         Z.max 1 (total_detections item))) detection_data
  /\ length (basic_heat_data detection_data) = length detection_data
  /\ Forall (fun p => 1 <= intensity_of p) (basic_heat_data detection_data)
  /\ (forall item : detection_record,
        In item detection_data ->
        exists i : Z,
          1 <= i
          /\ In (latitude item, longitude item, i)
               (basic_heat_data detection_data))
  /\ (exists m : folium_map,
        create_class_specific_heatmap rnd (Some c) detection_data = Some m
        /\ heat_layer m
           = match class_heat_data (Some c) detection_data with
             | [] => None
             | heat_data => Some heat_data
             end)
  /\ class_heat_data (Some c) detection_data
     = map (fun item => (latitude item, longitude item, count_of c item))
         (List.filter (fun item => 0 <? count_of c item) detection_data)
  /\ (forall p : weighted_point,
        In p (class_heat_data (Some c) detection_data) <->
        exists item : detection_record,
          In item detection_data
          /\ 0 < count_of c item
          /\ p = (latitude item, longitude item, count_of c item)).
Proof.
  intros Hne Hc.
  split; [|split; [|split; [|split; [|split; [|split; [|split]]]]]].
  - destruct detection_data as [|item rest]; [contradiction|].
    eexists. split; reflexivity.
  - reflexivity.
  - unfold basic_heat_data. apply length_map.
  - apply basic_heat_data_intensity.
  - intros item Hin. exists (Z.max 1 (total_detections item)).
    split; [lia|]. unfold basic_heat_data.
    apply (in_map (fun item => (latitude item, longitude item,
                                Z.max 1 (total_detections item)))).
    exact Hin.
  - destruct detection_data as [|item rest]; [contradiction|].
    eexists. split; [reflexivity|]. cbn [heat_layer].
    destruct (class_heat_data (Some c) (item :: rest)); reflexivity.
  - apply class_heat_data_filter. exact Hc.
  - intros p. rewrite (class_heat_data_filter c detection_data Hc).
    rewrite in_map_iff. split.
    + intros [item [Hp Hin]]. apply filter_In in Hin as [Hin Hpos].
      exists item. split; [exact Hin|]. split; [|symmetry; exact Hp].
      apply Z.ltb_lt. exact Hpos.
    + intros [item [Hin [Hpos Hp]]]. exists item.
      split; [symmetry; exact Hp|]. apply filter_In.
      split; [exact Hin|]. apply Z.ltb_lt. exact Hpos.
Qed.

Lemma heatmap_inclusion_witness :
  basic_heat_data sample_records
  = [ (481173 # 10000, 115167 # 10000, 3);
      (481180 # 10000, 115170 # 10000, 1) ]
  /\ class_heat_data (Some "leaf") sample_records
     = [ (481173 # 10000, 115167 # 10000, 1) ]
  /\ Forall (fun p => 1 <= intensity_of p) (basic_heat_data sample_records)
  /\ class_heat_data (Some "leaf") sample_records
     = map (fun item => (latitude item, longitude item, count_of "leaf" item))
         (List.filter (fun item => 0 <? count_of "leaf" item) sample_records).
Proof.
  split; [reflexivity|]. split; [vm_compute; reflexivity|].
  destruct (heatmap_inclusion binary64 sample_records "leaf"
              ltac:(discriminate) eq_refl)
    as (_ & _ & _ & Hall & _ & _ & Hclass & _).
  split; [exact Hall | exact Hclass].
Defined.

(** ** Rounding *)

Local Open Scope Q_scope.

Lemma round_half_even_near (r : Q) :
  Qabs (inject_Z (round_half_even r) - r) <= 1 # 2.
Proof.
  unfold round_half_even.
  pose proof (Qfloor_le r) as Hlo. pose proof (Qlt_floor r) as Hhi.
  rewrite inject_Z_plus in Hhi. change (inject_Z 1) with 1 in Hhi.
  set (f := Qfloor r) in *.
  apply Qabs_Qle_condition.
  destruct (r - inject_Z f ?= 1 # 2) eqn:E.
  - apply Qeq_alt in E.
    destruct (Z.even f); [|rewrite inject_Z_plus; change (inject_Z 1) with 1];
      lra.
  - apply Qlt_alt in E. lra.
  - apply Qgt_alt in E. rewrite inject_Z_plus. change (inject_Z 1) with 1. lra.
Qed.

Lemma two_nonzero : ~ 2 == 0.
Proof. discriminate. Qed.

Lemma binade_le (a : Q) : 0 < a -> 2 ^ binade a <= a.
Proof.
  intros Ha. unfold binade.
  set (n := Qnum a). set (d := Zpos (Qden a)).
  destruct (Qle_bool (2 ^ (Z.log2 n - Z.log2 d)) a) eqn:E.
  - apply Qle_bool_iff. exact E.
  - assert (Hn : (0 < n)%Z).
    { destruct a as [an ad]. unfold Qlt in Ha. simpl in *. subst n. lia. }
    assert (Hd : (0 < d)%Z) by (subst d; lia).
    destruct (Z.log2_spec n Hn) as [Hn1 _].
    destruct (Z.log2_spec d Hd) as [_ Hd2].
    pose proof (Z.log2_nonneg n) as Hln. pose proof (Z.log2_nonneg d) as Hld.
    set (ln := Z.log2 n) in *. set (ld := Z.log2 d) in *.
    set (P := 2 ^ (ln - ld - 1)).
    set (Y := inject_Z (2 ^ Z.succ ld)).
    assert (HY : 0 < Y).
    { subst Y. change 0 with (inject_Z 0). rewrite <- Zlt_Qlt.
      apply Z.pow_pos_nonneg; lia. }
    assert (HPY : P * Y == inject_Z (2 ^ ln)).
    { subst P Y. rewrite !Zpower_Qpower by lia. change (inject_Z 2) with 2.
      rewrite <- Qpower_plus by apply two_nonzero.
      replace (ln - ld - 1 + Z.succ ld)%Z with ln by lia. reflexivity. }
    assert (Had : a * inject_Z d == inject_Z n).
    { destruct a as [an ad]. subst n d. unfold Qeq, Qmult, inject_Z. simpl.
      lia. }
    apply (Qmult_le_r _ _ Y HY). rewrite HPY.
    apply Qle_trans with (inject_Z n); [rewrite <- Zle_Qle; exact Hn1|].
    rewrite <- Had. apply Qmult_le_l; [exact Ha|].
    subst Y. rewrite <- Zle_Qle. lia.
Qed.

Lemma half_ulp_bound (a : Q) :
  0 < a -> 2 ^ ulp_exponent a * (1 # 2) <= unit_roundoff * a + underflow_unit.
Proof.
  intros Ha. pose proof (binade_le a Ha) as He. unfold ulp_exponent.
  set (e := binade a) in *.
  assert (Hu : 0 < unit_roundoff) by reflexivity.
  assert (Hn : 0 < underflow_unit) by reflexivity.
  destruct (Z.max_spec e (-1022)) as [[Hlt Hm]|[Hle Hm]]; rewrite Hm.
  - assert (E : 2 ^ (-1022 - 52) * (1 # 2) == underflow_unit) by reflexivity.
    rewrite E.
    assert (0 <= unit_roundoff * a).
    { apply Qmult_le_0_compat; lra. }
    lra.
  - assert (E : 2 ^ (e - 52) * (1 # 2) == unit_roundoff * 2 ^ e).
    { replace (e - 52)%Z with (e + -52)%Z by lia.
      rewrite Qpower_plus by apply two_nonzero.
      assert (E' : 2 ^ (-52) * (1 # 2) == unit_roundoff) by reflexivity.
      rewrite <- E'. ring. }
    rewrite E.
    assert (unit_roundoff * 2 ^ e <= unit_roundoff * a).
    { apply Qmult_le_l; assumption. }
    lra.
Qed.

Lemma rounded_multiple_near (x : Q) :
  ~ x == 0 ->
  Qabs (inject_Z (round_half_even (x / 2 ^ ulp_exponent (Qabs x)))
        * 2 ^ ulp_exponent (Qabs x) - x)
  <= unit_roundoff * Qabs x + underflow_unit.
Proof.
  intros Hx.
  assert (Ha : 0 < Qabs x).
  { destruct (Qlt_le_dec 0 (Qabs x)) as [H|H]; [exact H|].
    exfalso. apply Hx. apply Qabs_Qle_condition in H. lra. }
  set (q := 2 ^ ulp_exponent (Qabs x)).
  assert (Hq : 0 < q) by (apply Qpower_0_lt; reflexivity).
  pose proof (round_half_even_near (x / q)) as Hn.
  set (n := inject_Z (round_half_even (x / q))) in *.
  assert (E : n * q - x == (n - x / q) * q) by (field; lra).
  rewrite E, Qabs_Qmult, (Qabs_pos q) by lra.
  apply Qle_trans with ((1 # 2) * q).
  - apply Qmult_le_r; assumption.
  - rewrite Qmult_comm. apply half_ulp_bound. exact Ha.
Qed.

Lemma binary64_standard_model : standard_model binary64.
Proof.
  intros x. unfold binary64.
  destruct (Qnum x) eqn:En.
  - assert (Hx : x == 0) by (unfold Qeq; simpl; rewrite En; reflexivity).
    rewrite Hx. vm_compute. discriminate.
  - apply rounded_multiple_near. unfold Qeq. simpl. rewrite En. discriminate.
  - apply rounded_multiple_near. unfold Qeq. simpl. rewrite En. discriminate.
Qed.

Lemma exact_standard_model : standard_model exact.
Proof.
  intros x. unfold exact.
  assert (E : x - x == 0) by ring. rewrite E.
  assert (0 <= unit_roundoff * Qabs x).
  { apply Qmult_le_0_compat; [discriminate|apply Qabs_nonneg]. }
  assert (0 < underflow_unit) by reflexivity.
  change (Qabs 0) with 0. lra.
Qed.

Lemma int_of_float_floor (x : Q) : 0 <= x -> int_of_float x = Qfloor x.
Proof.
  destruct x as [n d]. unfold Qle, int_of_float, Qfloor. simpl.
  intros Hn. apply Z.quot_div_nonneg; lia.
Qed.

Lemma int_of_float_ceiling (x : Q) : x <= 0 -> int_of_float x = Qceiling x.
Proof.
  destruct x as [n d]. unfold Qle, int_of_float, Qceiling, Qfloor, Qopp. simpl.
  intros Hn.
  replace n with (- - n)%Z at 1 by lia.
  rewrite Z.quot_opp_l by lia. f_equal.
  apply Z.quot_div_nonneg; lia.
Qed.

Lemma int_of_float_spec (x : Q) :
  (0 <= x -> inject_Z (int_of_float x) <= x /\ x < inject_Z (int_of_float x) + 1)
  /\ (x <= 0 -> x <= inject_Z (int_of_float x) /\ inject_Z (int_of_float x) < x + 1).
Proof.
  split; intros H.
  - rewrite (int_of_float_floor x H). split; [apply Qfloor_le|].
    pose proof (Qlt_floor x) as Hl. rewrite inject_Z_plus in Hl. exact Hl.
  - rewrite (int_of_float_ceiling x H). split; [apply Qle_ceiling|].
    pose proof (Qceiling_lt x) as Hl.
    unfold Z.sub in Hl. rewrite inject_Z_plus in Hl.
    change (inject_Z (- (1))) with (-1 # 1) in Hl. lra.
Qed.

Lemma standard_model_near (rnd : Q -> Q) (y : Q) :
  standard_model rnd ->
  -100000 <= y <= 100000 ->
  y - rounding_slack <= rnd y <= y + rounding_slack.
Proof.
  intros Hstd Hy. specialize (Hstd y).
  assert (Hu : unit_roundoff == 1 # 9007199254740992) by reflexivity.
  assert (He : underflow_unit <= 1 # 100000000000000000000)
    by (vm_compute; discriminate).
  assert (Ha : Qabs y <= 100000) by (apply Qabs_Qle_condition; lra).
  assert (Hb : Qabs (rnd y - y) <= rounding_slack).
  { eapply Qle_trans; [exact Hstd|]. rewrite Hu. unfold rounding_slack. lra. }
  apply Qabs_Qle_condition in Hb. lra.
Qed.

Lemma Qdiv_1_r (x : Q) : x / inject_Z 1 == x.
Proof. change (inject_Z 1) with 1. field. Qed.

Lemma dms_to_decimal_triple (rnd : Q -> Q) (d m s : Z) :
  dms_to_decimal rnd (dms_values ((d, 1%Z), (m, 1%Z), (s, 1000%Z)))
  = Ok (fadd rnd (fadd rnd (rnd (inject_Z d / inject_Z 1))
                           (fdiv rnd (rnd (inject_Z m / inject_Z 1)) 60))
                 (fdiv rnd (rnd (inject_Z s / inject_Z 1000)) 3600)).
Proof. reflexivity. Qed.

Ltac round_near Hstd y H :=
  let Hy := fresh "Hy" in
  assert (Hy : -100000 <= y <= 100000) by lra;
  pose proof (standard_model_near _ y Hstd Hy) as H;
  unfold rounding_slack in H; clear Hy.

Ltac truncate_near y H :=
  let Hs := fresh "Hs" in
  destruct (Qlt_le_dec y 0) as [Hs|Hs];
  [ pose proof (proj2 (int_of_float_spec y) (Qlt_le_weak _ _ Hs)) as H
  | pose proof (proj1 (int_of_float_spec y) Hs) as H ].

(** The round trip loses less than one millisecond of arc, which is
    0.00000028 degree. *)
Lemma dms_round_trip_bound (rnd : Q -> Q) (x : Q) :
  standard_model rnd ->
  -180 <= x <= 180 ->
  exists v : Q,
    dms_to_decimal rnd (dms_values (to_dms rnd x)) = Ok v
    /\ Qabs (v - Qabs x) <= 3 # 10000000.
Proof.
  intros Hstd Hx.
  assert (Ha0 : 0 <= Qabs x) by apply Qabs_nonneg.
  assert (Ha1 : Qabs x <= 180) by (apply Qabs_Qle_condition; lra).
  unfold to_dms. cbv zeta. rewrite dms_to_decimal_triple.
  eexists. split; [reflexivity|].
  unfold fadd, fsub, fmul, fdiv, float_of_int.
  set (a := Qabs x) in *.
  pose proof (proj1 (int_of_float_spec a) Ha0) as Hd. set (d := inject_Z (int_of_float a)) in *.
  round_near Hstd d Hfd. set (fd := rnd d) in *.
  round_near Hstd (a - fd) Hr1. set (r1 := rnd (a - fd)) in *.
  round_near Hstd (r1 * 60) Hmf. set (mf := rnd (r1 * 60)) in *.
  truncate_near mf Hm; set (m := inject_Z (int_of_float mf)) in *.
  all: round_near Hstd m Hfm; set (fm := rnd m) in *.
  all: round_near Hstd (mf - fm) Hr2; set (r2 := rnd (mf - fm)) in *.
  all: round_near Hstd (r2 * 60) Hsec; set (s := rnd (r2 * 60)) in *.
  all: round_near Hstd (s * 1000) Ht; set (t := rnd (s * 1000)) in *.
  all: truncate_near t HS; set (S := inject_Z (int_of_float t)) in *.
  all: assert (E0 : d / inject_Z 1 == d) by apply Qdiv_1_r.
  all: assert (E1 : m / inject_Z 1 == m) by apply Qdiv_1_r.
  all: assert (E2 : S / inject_Z 1000 == S * (1 # 1000))
    by (change (inject_Z 1000) with 1000; field).
  all: set (q0 := d / inject_Z 1) in *.
  all: set (q1 := m / inject_Z 1) in *.
  all: set (q2 := S / inject_Z 1000) in *.
  all: clearbody q0 q1 q2.
  all: round_near Hstd q0 Hf0; set (f0 := rnd q0) in *.
  all: round_near Hstd q1 Hf1; set (f1 := rnd q1) in *.
  all: round_near Hstd q2 Hf2; set (f2 := rnd q2) in *.
  all: assert (E3 : f1 / 60 == f1 * (1 # 60)) by field.
  all: assert (E4 : f2 / 3600 == f2 * (1 # 3600)) by field.
  all: set (q3 := f1 / 60) in *; set (q4 := f2 / 3600) in *.
  all: clearbody q3 q4.
  all: round_near Hstd q3 Hg1; set (g1 := rnd q3) in *.
  all: round_near Hstd (f0 + g1) Hg2; set (g2 := rnd (f0 + g1)) in *.
  all: round_near Hstd q4 Hg3; set (g3 := rnd q4) in *.
  all: round_near Hstd (g2 + g3) Hv; set (v := rnd (g2 + g3)) in *.
  all: apply Qabs_Qle_condition; lra.
Qed.

(** C1: the round trip through the EXIF encoding.  For a coordinate [x]
    between -180 and 180 and any arithmetic within the standard model,
    [to_dms] followed by the degrees + minutes/60 + seconds/3600 formula of
    the reader gives [|x|] to within 0.001 degree (the seconds are cut to
    whole milliseconds, not rounded). *)
Theorem to_dms_round_trip (rnd : Q -> Q) (x : Q) :
  standard_model rnd ->
  -180 <= x <= 180 ->
  exists v : Q,
    dms_to_decimal rnd (dms_values (to_dms rnd x)) = Ok v
    /\ Qabs (v - Qabs x) <= 1 # 1000.
Proof.
  intros Hstd Hx.
  destruct (dms_round_trip_bound rnd x Hstd Hx) as [v [Hv Hb]].
  exists v. split; [exact Hv|].
  eapply Qle_trans; [exact Hb|]. vm_compute. discriminate.
Qed.

Lemma to_dms_round_trip_witness :
  exists v : Q,
    dms_to_decimal binary64
      (dms_values (to_dms binary64 (- (481173 # 10000)))) = Ok v
    /\ Qabs (v - Qabs (- (481173 # 10000))) <= 1 # 1000.
Proof.
  apply (to_dms_round_trip binary64 (- (481173 # 10000))
           binary64_standard_model).
  split; vm_compute; discriminate.
Defined.

(** The position [add_gps_to_image] writes is the position the reader
    finds, sign included, to within 0.001 degree. *)
Lemma written_position_is_read_back (rnd : Q -> Q) (lat lon : Q) :
  standard_model rnd ->
  -180 <= lat <= 180 ->
  -180 <= lon <= 180 ->
  exists lat' lon' : Q,
    read_existing_gps_from_image rnd (Some (gps_ifd rnd lat lon))
    = Some (lat', lon')
    /\ Qabs (lat' - lat) <= 1 # 1000
    /\ Qabs (lon' - lon) <= 1 # 1000.
Proof.
  intros Hstd Hlat Hlon.
  destruct (dms_round_trip_bound rnd lat Hstd Hlat) as [u [Hu Hub]].
  destruct (dms_round_trip_bound rnd lon Hstd Hlon) as [v [Hv Hvb]].
  unfold read_existing_gps_from_image, gps_ifd.
  cbn [GPSLatitude GPSLongitude GPSLatitudeRef GPSLongitudeRef ref_of default].
  rewrite Hu, Hv. cbn [bind].
  apply Qabs_Qle_condition in Hub. apply Qabs_Qle_condition in Hvb.
  destruct (Qlt_le_dec lat 0) as [Hn|Hp], (Qlt_le_dec lon 0) as [Hn'|Hp'];
    cbn [String.eqb Ascii.eqb Bool.eqb];
    eexists; eexists; (split; [reflexivity|]).
  all: try (pose proof (Qabs_neg lat (Qlt_le_weak _ _ Hn)) as Ea).
  all: try (pose proof (Qabs_pos lat Hp) as Ea).
  all: try (pose proof (Qabs_neg lon (Qlt_le_weak _ _ Hn')) as Eo).
  all: try (pose proof (Qabs_pos lon Hp') as Eo).
  all: split.
  all: match goal with
       | |- context [String.eqb ?a ?b] =>
           let r := eval vm_compute in (String.eqb a b) in
           change (String.eqb a b) with r
       end; cbv iota.
  all: apply Qabs_Qle_condition; lra.
Qed.

(** ** Range of the decoded coordinates *)

















(** * Further properties *)

Local Open Scope Z_scope.

Lemma gives_no_fix_examine (rnd : Q -> Q) (ev : read_event) :
  gives_no_fix rnd ev = true ->
  exists b : string, ev = Bytes b /\ examine_line rnd (line_of b) = NoFix.
Proof.
  destruct ev as [b|]; cbn [gives_no_fix]; [|discriminate].
  destruct (examine_line rnd (line_of b)) eqn:E; try discriminate.
  intros _. exists b. split; [reflexivity | exact E].
Qed.

Lemma loop_body_silent (rnd : Q -> Q) (st : loop_state) :
  pending (ser st) = [] ->
  loop_body rnd st = Continue {| attempts := attempts st + 1; ser := ser st |}.
Proof.
  intros Hp. unfold loop_body, readline. rewrite Hp. reflexivity.
Qed.

Lemma while_loop_times_out (rnd : Q -> Q) (fuel : nat) :
  forall st : loop_state,
    attempts st = max_attempts - Z.of_nat fuel ->
    forallb (gives_no_fix rnd) (firstn fuel (pending (ser st))) = true ->
    while_loop rnd fuel st
    = Some (TimedOut, {| pending := skipn fuel (pending (ser st));
                         is_open := false |}).
Proof.
  induction fuel as [|fuel IH]; intros st Ha Hall.
  - simpl. replace (attempts st <? max_attempts) with false
      by (symmetry; apply Z.ltb_ge; lia).
    reflexivity.
  - cbn [while_loop].
    replace (attempts st <? max_attempts) with true
      by (symmetry; apply Z.ltb_lt; lia).
    destruct (pending (ser st)) as [|ev rest] eqn:Hp.
    + rewrite (loop_body_silent rnd st Hp).
      rewrite IH; cbn [attempts ser]; rewrite ?Hp.
      * rewrite skipn_nil. reflexivity.
      * lia.
      * rewrite firstn_nil. reflexivity.
    + cbn [firstn forallb] in Hall. apply andb_prop in Hall as [Hev Hall].
      destruct (gives_no_fix_examine rnd ev Hev) as [b [-> Hb]].
      rewrite (no_fix_advances rnd st b rest Hp Hb).
      rewrite IH; cbn [attempts ser pending]; [reflexivity|lia|exact Hall].
Qed.

(** X1: the attempt bound.  When none of the first 50 reads gives a fix
    (and none raises), [read_gps] times out with the port closed, having
    read exactly those 50; whatever the device sends afterwards, a valid
    sentence included, stays unread. *)
Theorem read_gps_gives_up_after_50_lines (rnd : Q -> Q)
    (incoming : list read_event) :
  forallb (gives_no_fix rnd) (firstn 50 incoming) = true ->
  read_gps rnd (Some incoming)
  = Some (TimedOut, Some {| pending := skipn 50 incoming; is_open := false |}).
Proof.
  intros Hall. unfold read_gps.
  change (Z.to_nat max_attempts) with 50%nat.
  rewrite (while_loop_times_out rnd 50); [reflexivity|reflexivity|exact Hall].
Qed.

Lemma read_gps_gives_up_after_50_lines_witness :
  read_gps binary64 (Some (repeat (Bytes gga_no_fix) 50 ++ [Bytes gga_fix]))
  = Some (TimedOut, Some {| pending := [Bytes gga_fix]; is_open := false |}).
Proof.
  apply (read_gps_gives_up_after_50_lines binary64
           (repeat (Bytes gga_no_fix) 50 ++ [Bytes gga_fix])).
  vm_compute. reflexivity.
Defined.

(** Lines that give no fix are passed over, one attempt each. *)
Lemma while_loop_skips (rnd : Q -> Q) (before : list read_event) :
  forall (fuel : nat) (st : loop_state) (tail : list read_event),
    forallb (gives_no_fix rnd) before = true ->
    pending (ser st) = before ++ tail ->
    attempts st + Z.of_nat (length before) <= max_attempts ->
    while_loop rnd (length before + fuel) st
    = while_loop rnd fuel
        {| attempts := attempts st + Z.of_nat (length before);
           ser := {| pending := tail; is_open := is_open (ser st) |} |}.
Proof.
  induction before as [|ev before IH]; intros fuel st tail Hall Hp Ha.
  - simpl in *. destruct st as [a [p o]]. simpl in *. subst p.
    replace (a + Z.of_nat 0) with a by lia. reflexivity.
  - cbn [forallb] in Hall. apply andb_prop in Hall as [Hev Hall].
    destruct (gives_no_fix_examine rnd ev Hev) as [b [-> Hb]].
    cbn [length Nat.add while_loop].
    replace (attempts st <? max_attempts) with true
      by (symmetry; apply Z.ltb_lt; cbn [length] in Ha; lia).
    rewrite (no_fix_advances rnd st b (before ++ tail) Hp Hb).
    rewrite (IH fuel _ tail Hall); cbn [attempts ser pending is_open].
    + f_equal. f_equal. cbn [length]. lia.
    + reflexivity.
    + cbn [length] in Ha. lia.
Qed.

Lemma read_gps_after_skipped (rnd : Q -> Q) (before : list read_event)
    (ev : read_event) (rest : list read_event) :
  (length before < 50)%nat ->
  forallb (gives_no_fix rnd) before = true ->
  read_gps rnd (Some (before ++ ev :: rest))
  = match loop_body rnd
            {| attempts := Z.of_nat (length before);
               ser := {| pending := ev :: rest; is_open := true |} |} with
    | Return o p => Some (o, Some p)
    | Continue st =>
        match while_loop rnd (49 - length before) st with
        | Some (o, p) => Some (o, Some p)
        | None => None
        end
    end.
Proof.
  intros Hlen Hall. unfold read_gps.
  change (Z.to_nat max_attempts) with 50%nat.
  replace 50%nat with (length before + S (49 - length before))%nat at 1 by lia.
  rewrite (while_loop_skips rnd before (S (49 - length before))
             {| attempts := 0;
                ser := {| pending := before ++ ev :: rest; is_open := true |} |}
             (ev :: rest) Hall eq_refl)
    by (cbn [attempts]; unfold max_attempts; lia).
  cbn [attempts ser is_open]. rewrite Z.add_0_l. cbn [while_loop attempts].
  replace (Z.of_nat (length before) <? max_attempts) with true
    by (symmetry; apply Z.ltb_lt; unfold max_attempts; lia).
  destruct (loop_body rnd _) as [st'|o p]; reflexivity.
Qed.

(** X2: the first fix wins.  After fewer than 50 lines that give no fix, a
    line that gives one ends [read_gps] with that fix and the port closed;
    what follows it is not read. *)
Theorem first_fix_is_returned (rnd : Q -> Q) (before : list read_event)
    (b : string) (rest : list read_event) (lat lon : Q) :
  (length before < 50)%nat ->
  forallb (gives_no_fix rnd) before = true ->
  examine_line rnd (line_of b) = GotFix lat lon ->
  read_gps rnd (Some (before ++ Bytes b :: rest))
  = Some (Fixed lat lon, Some {| pending := rest; is_open := false |}).
Proof.
  intros Hlen Hall Hb.
  rewrite (read_gps_after_skipped rnd before (Bytes b) rest Hlen Hall).
  rewrite (loop_body_bytes rnd
             {| attempts := Z.of_nat (length before);
                ser := {| pending := Bytes b :: rest; is_open := true |} |}
             b rest eq_refl).
  cbv zeta. rewrite Hb. reflexivity.
Qed.

(** X3: errors inside the loop.  After fewer than 50 lines that give no
    fix, a read that raises ends [read_gps] as a device error, and a line
    whose handling raises past the inner [try] ends it as an unexpected
    error; in both cases [None] is returned, the rest is not read, and the
    port is left open. *)
Theorem error_ends_acquisition_with_port_open (rnd : Q -> Q)
    (before : list read_event) (rest : list read_event) :
  (length before < 50)%nat ->
  forallb (gives_no_fix rnd) before = true ->
  read_gps rnd (Some (before ++ ReadFails :: rest))
  = Some (DeviceError, Some {| pending := rest; is_open := true |})
  /\ forall (b : string) (e : exn),
       examine_line rnd (line_of b) = Escapes e ->
       read_gps rnd (Some (before ++ Bytes b :: rest))
       = Some (UnexpectedError e,
               Some {| pending := rest; is_open := true |}).
Proof.
  intros Hlen Hall. split.
  - rewrite (read_gps_after_skipped rnd before ReadFails rest Hlen Hall).
    reflexivity.
  - intros b e Hb.
    rewrite (read_gps_after_skipped rnd before (Bytes b) rest Hlen Hall).
    rewrite (loop_body_bytes rnd
               {| attempts := Z.of_nat (length before);
                  ser := {| pending := Bytes b :: rest; is_open := true |} |}
               b rest eq_refl).
    cbv zeta. rewrite Hb. reflexivity.
Qed.

Local Open Scope Z_scope.

Lemma first_fix_is_returned_witness :
  exists lat lon : Q,
    read_gps binary64
      (Some ([Bytes ""; Bytes gga_no_fix; Bytes gga_bad_latitude]
             ++ Bytes gga_fix :: [Bytes gga_no_fix]))
    = Some (Fixed lat lon,
            Some {| pending := [Bytes gga_no_fix]; is_open := false |}).
Proof.
  eexists; eexists.
  apply (first_fix_is_returned binary64
           [Bytes ""; Bytes gga_no_fix; Bytes gga_bad_latitude]
           gga_fix [Bytes gga_no_fix]).
  - simpl. lia.
  - vm_compute. reflexivity.
  - vm_compute. reflexivity.
Defined.

Lemma error_ends_acquisition_with_port_open_witness :
  read_gps binary64 (Some ([Bytes gga_no_fix] ++ ReadFails :: [Bytes gga_fix]))
  = Some (DeviceError, Some {| pending := [Bytes gga_fix]; is_open := true |})
  /\ read_gps binary64
       (Some ([Bytes gga_no_fix] ++ Bytes gga_bad_quality :: [Bytes gga_fix]))
     = Some (UnexpectedError ValueError,
             Some {| pending := [Bytes gga_fix]; is_open := true |}).
Proof.
  destruct (error_ends_acquisition_with_port_open binary64
              [Bytes gga_no_fix] [Bytes gga_fix]
              ltac:(simpl; lia) eq_refl) as [H1 H2].
  split; [exact H1|]. apply H2. reflexivity.
Defined.

(** [read_gps] reads at most [max_attempts] lines. *)
Lemma while_loop_reads (rnd : Q -> Q) (fuel : nat) :
  forall (st : loop_state) (o : outcome) (p : port),
    while_loop rnd fuel st = Some (o, p) ->
    exists k : nat, (k <= fuel)%nat /\ pending p = skipn k (pending (ser st)).
Proof.
  induction fuel as [|fuel IH]; intros st o p H; cbn [while_loop] in H.
  - destruct (attempts st <? max_attempts); [discriminate|].
    inversion H; subst. exists 0%nat. split; [lia|reflexivity].
  - destruct (attempts st <? max_attempts).
    2: { inversion H; subst. exists 0%nat. split; [lia|reflexivity]. }
    unfold loop_body, readline in H.
    destruct (pending (ser st)) as [|ev rest] eqn:Hp.
    + destruct (examine_line rnd (Py.strip (Py.decode_ascii_ignore ""))).
      * inversion H; subst. exists 0%nat. cbn [close pending].
        split; [lia|]. rewrite Hp. reflexivity.
      * apply IH in H as [k [Hk Hk']]. cbn [ser] in Hk'. rewrite Hp in Hk'.
        exists 0%nat. split; [lia|]. rewrite Hk', skipn_nil. reflexivity.
      * inversion H; subst. exists 0%nat. split; [lia|]. rewrite Hp.
        reflexivity.
    + destruct ev as [b|].
      * destruct (examine_line rnd (Py.strip (Py.decode_ascii_ignore b))).
        -- inversion H; subst. exists 1%nat. split; [lia|reflexivity].
        -- apply IH in H as [k [Hk Hk']]. cbn [ser pending] in Hk'.
           exists (S k). split; [lia|exact Hk'].
        -- inversion H; subst. exists 1%nat. split; [lia|reflexivity].
      * inversion H; subst. exists 1%nat. split; [lia|reflexivity].
Qed.

(** X4: however [read_gps] ends, it has taken at most 50 reads from the
    device, and what it did not read is still pending, in order. *)
Theorem read_gps_reads_at_most_50_lines (rnd : Q -> Q)
    (incoming : list read_event) (o : outcome) (p : port) :
  read_gps rnd (Some incoming) = Some (o, Some p) ->
  exists k : nat, (k <= 50)%nat /\ pending p = skipn k incoming.
Proof.
  unfold read_gps.
  destruct (while_loop rnd (Z.to_nat max_attempts) _) as [[o' p']|] eqn:Hw;
    [|discriminate].
  intros H; inversion H; subst.
  apply while_loop_reads in Hw. exact Hw.
Qed.

Lemma read_gps_reads_at_most_50_lines_witness :
  exists k : nat,
    (k <= 50)%nat
    /\ [Bytes gga_no_fix]
       = skipn k [Bytes gga_bad_latitude; Bytes gga_fix; Bytes gga_no_fix].
Proof.
  assert (H : exists o : outcome,
             read_gps binary64
               (Some [Bytes gga_bad_latitude; Bytes gga_fix; Bytes gga_no_fix])
             = Some (o, Some {| pending := [Bytes gga_no_fix];
                                is_open := false |}))
    by (eexists; vm_compute; reflexivity).
  destruct H as [o H].
  exact (read_gps_reads_at_most_50_lines binary64 _ o _ H).
Defined.

Local Open Scope Z_scope.

Lemma int_raises_value_error (s : string) (e : exn) :
  Py.int s = Raise e -> e = ValueError.
Proof.
  unfold Py.int. destruct (Py.sign_of (Py.numeric_text s)) as [neg t].
  destruct (Py.digitpart t) as [[[v n] [|c r]]|];
    [destruct (Py.int_max_str_digits <? n)| |]; intros H; congruence.
Qed.

Lemma float_of_string_raises_value_error (rnd : Q -> Q) (s : string) (e : exn) :
  float_of_string rnd s = Raise e -> e = ValueError.
Proof.
  unfold float_of_string. destruct (Py.sign_of (Py.numeric_text s)) as [neg t].
  destruct (Py.is_nonfinite_literal t); [discriminate|].
  destruct (Py.decimal_literal t) as [[[m k] x]|]; [|congruence].
  destruct (Qle_bool _ _); discriminate.
Qed.

Lemma truthy_true (s : string) : Py.truthy s = true <-> s <> "".
Proof. destruct s; simpl; split; congruence. Qed.

Lemma parse_raises_value_error (rnd : Q -> Q) (s dir : string) (e : exn) :
  parse_nmea_coordinate rnd s dir = Raise e -> e = ValueError.
Proof.
  rewrite parse_nmea_coordinate_unfold.
  unfold parse_nmea_coordinate_one_layout.
  destruct (negb (Py.truthy s)); [discriminate|].
  destruct (float_of_string rnd s) as [[c|]|e'] eqn:Hf; cbn [bind];
    intros H; inversion H; subst; [reflexivity|].
  exact (float_of_string_raises_value_error rnd _ _ Hf).
Qed.

(** X8: the outcomes of [parse_nmea_coordinate].  It returns [None] for
    the empty string and for no other; the only exception it raises is
    [ValueError], and it raises it exactly when [float] does not give a
    finite number for the string; otherwise it returns a number. *)
Theorem parse_nmea_coordinate_outcomes (rnd : Q -> Q) (s dir : string) :
  (parse_nmea_coordinate rnd s dir = Ok None <-> s = "")
  /\ (forall e : exn, parse_nmea_coordinate rnd s dir = Raise e ->
        e = ValueError /\ forall c : Q, float_of_string rnd s <> Ok (Finite c))
  /\ (forall v : Q, parse_nmea_coordinate rnd s dir = Ok (Some v) ->
        exists c : Q, float_of_string rnd s = Ok (Finite c)).
Proof.
  rewrite parse_nmea_coordinate_unfold.
  unfold parse_nmea_coordinate_one_layout.
  destruct s as [|a s]; cbn [Py.truthy negb].
  - split; [split; reflexivity|]. split; intros ? H; discriminate.
  - destruct (float_of_string rnd (String a s)) as [[c|]|e'] eqn:Hf;
      cbn [bind].
    + split; [split; discriminate|]. split; [intros e H; discriminate|].
      intros v _. exists c. reflexivity.
    + split; [split; discriminate|]. split; [|intros v H; discriminate].
      intros e H. inversion H; subst. split; [reflexivity|discriminate].
    + split; [split; discriminate|]. split; [|intros v H; discriminate].
      intros e H. inversion H; subst.
      split; [|discriminate].
      exact (float_of_string_raises_value_error rnd _ _ Hf).
Qed.

Lemma parse_nmea_coordinate_outcomes_witness :
  parse_nmea_coordinate binary64 "" "N" = Ok None
  /\ parse_nmea_coordinate binary64 "12x" "N" = Raise ValueError
  /\ exists c : Q, float_of_string binary64 "4807.038" = Ok (Finite c).
Proof.
  split; [exact (proj2 (proj1 (parse_nmea_coordinate_outcomes binary64 "" "N"))
                   eq_refl)|].
  split; [reflexivity|].
  destruct (parse_nmea_coordinate binary64 "4807.038" "N") as [[v|]|e] eqn:E;
    try (vm_compute in E; discriminate).
  exact (proj2 (proj2 (parse_nmea_coordinate_outcomes binary64 "4807.038" "N"))
           v E).
Defined.

Lemma extract_coordinates_raises (rnd : Q -> Q) (parts : list string) (e : exn) :
  extract_coordinates rnd parts = Raise e -> e = ValueError \/ e = IndexError.
Proof.
  unfold extract_coordinates, item.
  destruct (nth_error parts 2) as [lat_str|]; cbn [bind];
    [|intros H; inversion H; auto].
  destruct (nth_error parts 3) as [lat_dir|]; cbn [bind];
    [|intros H; inversion H; auto].
  destruct (nth_error parts 4) as [lon_str|]; cbn [bind];
    [|intros H; inversion H; auto].
  destruct (nth_error parts 5) as [lon_dir|]; cbn [bind];
    [|intros H; inversion H; auto].
  destruct (_ && _); [|discriminate].
  destruct (parse_nmea_coordinate rnd lat_str lat_dir) as [lat|e1] eqn:E1;
    cbn [bind].
  - destruct (parse_nmea_coordinate rnd lon_str lon_dir) as [lon|e2] eqn:E2;
      cbn [bind].
    + destruct lat, lon; discriminate.
    + intros H; inversion H; subst. left.
      exact (parse_raises_value_error rnd _ _ _ E2).
  - intros H; inversion H; subst. left.
    exact (parse_raises_value_error rnd _ _ _ E1).
Qed.

Lemma has_valid_fix_true (parts : list string) :
  has_valid_fix parts = Ok true ->
  exists (quality : string) (q : Z),
    nth_error parts 6 = Some quality /\ Py.int quality = Ok q /\ 0 < q.
Proof.
  unfold has_valid_fix, item.
  destruct (7 <=? Z.of_nat (length parts)); [|discriminate].
  destruct (nth_error parts 6) as [quality|] eqn:H6; cbn [bind];
    [|discriminate].
  destruct (Py.truthy quality); [|discriminate].
  destruct (Py.int quality) as [q|e] eqn:Hi; cbn [bind]; [|discriminate].
  intros H. inversion H as [Hq]. exists quality, q.
  split; [reflexivity|]. split; [exact Hi|]. apply Z.ltb_lt. exact Hq.
Qed.

Lemma int_empty (q : Z) : Py.int "" <> Ok q.
Proof. discriminate. Qed.

(** X5: what a fix takes.  A line gives a fix exactly when it starts with
    [$GPGGA] or [$GNGGA], its field 6 is an integer literal above zero, its
    fields 2 to 5 are there and non-empty, and [parse_nmea_coordinate] gives
    a number for both coordinate fields; the fix is those two numbers. *)
Theorem fix_needs_quality_and_fields (rnd : Q -> Q) (line : string)
    (lat lon : Q) :
  examine_line rnd line = GotFix lat lon
  <-> recognized line = true /\ fix_fields rnd line lat lon.
Proof.
  unfold examine_line, fix_fields, recognized. cbv zeta. split.
  - destruct (Py.startswith line "$GPGGA" || Py.startswith line "$GNGGA");
      [|discriminate].
    destruct (has_valid_fix (Py.split "," line)) as [[|]|e] eqn:Hv;
      try discriminate.
    destruct (has_valid_fix_true _ Hv) as (quality & q & H6 & Hq & Hpos).
    unfold extract_coordinates, item.
    destruct (nth_error (Py.split "," line) 2) as [lat_str|] eqn:H2;
      cbn [bind]; [|discriminate].
    destruct (nth_error (Py.split "," line) 3) as [lat_dir|] eqn:H3;
      cbn [bind]; [|discriminate].
    destruct (nth_error (Py.split "," line) 4) as [lon_str|] eqn:H4;
      cbn [bind]; [|discriminate].
    destruct (nth_error (Py.split "," line) 5) as [lon_dir|] eqn:H5;
      cbn [bind]; [|discriminate].
    destruct (Py.truthy lat_str) eqn:T1; cbn [andb]; [|discriminate].
    destruct (Py.truthy lon_str) eqn:T2; cbn [andb]; [|discriminate].
    destruct (Py.truthy lat_dir) eqn:T3; cbn [andb]; [|discriminate].
    destruct (Py.truthy lon_dir) eqn:T4; cbn [andb]; [|discriminate].
    destruct (parse_nmea_coordinate rnd lat_str lat_dir) as [[u|]|e1] eqn:E1;
      cbn [bind]; try (destruct e1; discriminate).
    + destruct (parse_nmea_coordinate rnd lon_str lon_dir) as [[v|]|e2] eqn:E2;
        cbn [bind]; try discriminate; try (destruct e2; discriminate).
      intros H. inversion H; subst.
      split; [reflexivity|].
      exists quality, lat_str, lat_dir, lon_str, lon_dir, q.
      apply truthy_true in T1, T2, T3, T4.
      repeat (split; [first [assumption | reflexivity]|]). exact E2.
    + destruct (parse_nmea_coordinate rnd lon_str lon_dir) as [[v|]|e2];
        cbn [bind]; try discriminate; destruct e2; discriminate.
  - intros [Hr (quality & lat_str & lat_dir & lon_str & lon_dir & q & H6 & Hq
                & Hpos & H2 & H3 & H4 & H5 & N1 & N2 & N3 & N4 & Hlat & Hlon)].
    rewrite Hr.
    assert (Ht : Py.truthy quality = true).
    { apply truthy_true. intros ->. exact (int_empty q Hq). }
    rewrite (has_valid_fix_quality _ quality q H6 Ht Hq).
    replace (0 <? q) with true by (symmetry; apply Z.ltb_lt; exact Hpos).
    unfold extract_coordinates.
    rewrite (item_nth_error _ _ _ H2), (item_nth_error _ _ _ H3),
      (item_nth_error _ _ _ H4), (item_nth_error _ _ _ H5). cbn [bind].
    rewrite (proj2 (truthy_true lat_str) N1), (proj2 (truthy_true lon_str) N2),
      (proj2 (truthy_true lat_dir) N3), (proj2 (truthy_true lon_dir) N4).
    cbn [andb]. rewrite Hlat, Hlon. reflexivity.
Qed.

(** X6: the only line that aborts the acquisition.  An exception leaves
    the loop body exactly for a recognized sentence whose field 6 is
    non-empty and not an integer literal, and it is [ValueError]; bad
    coordinate fields and short sentences never do. *)
Theorem only_a_bad_quality_field_escapes (rnd : Q -> Q) (line : string)
    (e : exn) :
  examine_line rnd line = Escapes e
  <-> recognized line = true /\ e = ValueError
      /\ exists quality : string,
           nth_error (Py.split "," line) 6 = Some quality
           /\ quality <> "" /\ Py.int quality = Raise ValueError.
Proof.
  unfold examine_line, recognized. split.
  - destruct (Py.startswith line "$GPGGA" || Py.startswith line "$GNGGA");
      [|discriminate].
    destruct (has_valid_fix (Py.split "," line)) as [[|]|e'] eqn:Hv.
    + destruct (extract_coordinates rnd (Py.split "," line))
        as [[[u v]|]|e''] eqn:He; try discriminate.
      destruct (extract_coordinates_raises rnd _ _ He) as [-> | ->];
        discriminate.
    + discriminate.
    + intros H. inversion H; subst. revert Hv.
      unfold has_valid_fix, item.
      destruct (7 <=? Z.of_nat (length (Py.split "," line))) eqn:Hlen;
        [|discriminate].
      destruct (nth_error (Py.split "," line) 6) as [quality|] eqn:H6;
        cbn [bind].
      2: { apply nth_error_None in H6. apply Z.leb_le in Hlen. lia. }
      destruct (Py.truthy quality) eqn:Ht; [|discriminate].
      destruct (Py.int quality) as [q|e'] eqn:Hq; cbn [bind]; [discriminate|].
      intros Hv. inversion Hv; subst.
      pose proof (int_raises_value_error _ _ Hq) as ->.
      split; [reflexivity|]. split; [reflexivity|].
      exists quality. split; [reflexivity|].
      split; [apply truthy_true; exact Ht | exact Hq].
  - intros [Hr [-> [quality [H6 [Hne Hq]]]]]. rewrite Hr.
    unfold has_valid_fix.
    pose proof (nth_error_length_le _ _ _ H6) as Hlen.
    destruct (7 <=? Z.of_nat (length (Py.split "," line))) eqn:E; [|lia].
    rewrite (item_nth_error _ _ _ H6). cbn [bind].
    rewrite (proj2 (truthy_true quality) Hne), Hq. reflexivity.
Qed.

Local Open Scope Z_scope.

Lemma fix_needs_quality_and_fields_witness :
  exists lat lon : Q, examine_line binary64 gga_fix = GotFix lat lon.
Proof.
  eexists; eexists.
  apply (proj2 (fix_needs_quality_and_fields binary64 gga_fix _ _)).
  split; [reflexivity|].
  exists "1", "4807.038", "N", "01131.000", "E", 1.
  split; [vm_compute; reflexivity|].
  split; [vm_compute; reflexivity|].
  split; [lia|].
  do 4 (split; [vm_compute; reflexivity|]).
  do 4 (split; [discriminate|]).
  split; vm_compute; reflexivity.
Defined.

Lemma only_a_bad_quality_field_escapes_witness :
  examine_line binary64 gga_bad_quality = Escapes ValueError.
Proof.
  apply (proj2 (only_a_bad_quality_field_escapes binary64 gga_bad_quality
                  ValueError)).
  split; [reflexivity|]. split; [reflexivity|].
  exists "x". split; [reflexivity|]. split; [discriminate|reflexivity].
Defined.

Local Open Scope Z_scope.

Lemma append_cons (c : ascii) (a b : string) :
  String.append (String c a) b = String c (String.append a b).
Proof. reflexivity. Qed.

Lemma append_nil (b : string) : String.append "" b = b.
Proof. reflexivity. Qed.

Lemma decode_app (a b : string) :
  Py.decode_ascii_ignore (String.append a b)
  = String.append (Py.decode_ascii_ignore a) (Py.decode_ascii_ignore b).
Proof.
  induction a as [|c a IH]; [reflexivity|].
  rewrite append_cons. cbn [Py.decode_ascii_ignore].
  destruct (Z.of_nat (nat_of_ascii c) <? 128); rewrite IH; reflexivity.
Qed.

Lemma decode_all_space (w : string) :
  all_space w = true -> all_space (Py.decode_ascii_ignore w) = true.
Proof.
  induction w as [|c w IH]; [reflexivity|].
  cbn [all_space Py.decode_ascii_ignore]. intros H.
  apply andb_prop in H as [Hc Hw].
  destruct (Z.of_nat (nat_of_ascii c) <? 128); [|exact (IH Hw)].
  cbn [all_space]. rewrite Hc, (IH Hw). reflexivity.
Qed.

Lemma lstrip_all_space (w s : string) :
  all_space w = true -> Py.lstrip (String.append w s) = Py.lstrip s.
Proof.
  induction w as [|c w IH]; [reflexivity|].
  rewrite append_cons. cbn [all_space Py.lstrip]. intros H.
  apply andb_prop in H as [Hc Hw]. rewrite Hc. exact (IH Hw).
Qed.

Lemma lstrip_space_only (w : string) :
  all_space w = true -> Py.lstrip w = "".
Proof.
  induction w as [|c w IH]; [reflexivity|].
  cbn [all_space Py.lstrip]. intros H.
  apply andb_prop in H as [Hc Hw]. rewrite Hc. exact (IH Hw).
Qed.

Lemma rstrip_all_space (s w : string) :
  all_space w = true -> Py.rstrip (String.append s w) = Py.rstrip s.
Proof.
  intros Hw. induction s as [|c s IH].
  - rewrite append_nil. induction w as [|c w IHw]; [reflexivity|].
    cbn [all_space] in Hw. apply andb_prop in Hw as [Hc Hw].
    cbn [Py.rstrip]. rewrite (IHw Hw), Hc. reflexivity.
  - rewrite append_cons. cbn [Py.rstrip]. rewrite IH. reflexivity.
Qed.

Lemma lstrip_app (s w : string) :
  Py.lstrip (String.append s w)
  = match Py.lstrip s with
    | EmptyString => Py.lstrip w
    | t => String.append t w
    end.
Proof.
  induction s as [|c s IH]; [reflexivity|].
  rewrite append_cons. cbn [Py.lstrip].
  destruct (Py.is_space c); [exact IH | reflexivity].
Qed.

Lemma strip_surrounded (w1 s w2 : string) :
  all_space w1 = true -> all_space w2 = true ->
  Py.strip (String.append w1 (String.append s w2)) = Py.strip s.
Proof.
  intros H1 H2. unfold Py.strip.
  rewrite (lstrip_all_space w1 _ H1), lstrip_app.
  destruct (Py.lstrip s) as [|c t] eqn:E.
  - rewrite (lstrip_space_only w2 H2). reflexivity.
  - apply rstrip_all_space. exact H2.
Qed.

(** X7: what the loop does to the bytes before it looks at them.  White
    space around a line (the CR LF of NMEA) is stripped, and a byte above
    127 anywhere in it is dropped: the line is read as if they were not
    there. *)
Theorem white_space_and_high_bytes_are_ignored :
  (forall w1 b w2 : string,
     all_space w1 = true -> all_space w2 = true ->
     line_of (String.append w1 (String.append b w2)) = line_of b)
  /\ (forall (a b : string) (c : ascii),
        high_byte c = true ->
        line_of (String.append a (String c b)) = line_of (String.append a b)).
Proof.
  split.
  - intros w1 b w2 H1 H2. unfold line_of. rewrite !decode_app.
    apply strip_surrounded; apply decode_all_space; assumption.
  - intros a b c Hc. unfold line_of. rewrite !decode_app.
    cbn [Py.decode_ascii_ignore]. unfold high_byte in Hc.
    destruct (Z.of_nat (nat_of_ascii c) <? 128); [discriminate|reflexivity].
Qed.

Lemma white_space_and_high_bytes_are_ignored_witness :
  line_of (String.append " " (String.append gga_fix crlf)) = line_of gga_fix
  /\ line_of (String.append "$GPG" (String "200" "GA")) = "$GPGGA".
Proof.
  destruct white_space_and_high_bytes_are_ignored as (H1 & H2).
  split.
  - apply H1; reflexivity.
  - rewrite (H2 "$GPG" "GA" "200"%char eq_refl). reflexivity.
Defined.

Local Open Scope Z_scope.

Local Open Scope Q_scope.

Lemma Qabs_opp_eq (x : Q) : Qabs (- x) = Qabs x.
Proof. destruct x as [n d]. unfold Qabs, Qopp. simpl. rewrite Z.abs_opp. reflexivity. Qed.

(** [to_dms] forgets the sign. *)
Lemma to_dms_opp (rnd : Q -> Q) (x : Q) : to_dms rnd (- x) = to_dms rnd x.
Proof. unfold to_dms. rewrite Qabs_opp_eq. reflexivity. Qed.

Lemma inject_Z_nonneg_of_gt (z : Z) : -1 < inject_Z z -> (0 <= z)%Z.
Proof.
  intros H. destruct (Z_le_gt_dec 0 z) as [Hz|Hz]; [exact Hz|].
  exfalso. assert (Hz' : (z <= -1)%Z) by lia.
  rewrite Zle_Qle in Hz'. change (inject_Z (-1)) with (-1 # 1) in Hz'. lra.
Qed.

Lemma inject_Z_le_of_lt (z k : Z) : inject_Z z < inject_Z k + 1 -> (z <= k)%Z.
Proof.
  intros H. destruct (Z_le_gt_dec z k) as [Hz|Hz]; [exact Hz|].
  exfalso. assert (Hz' : (k + 1 <= z)%Z) by lia.
  rewrite Zle_Qle, inject_Z_plus in Hz'. change (inject_Z 1) with 1 in Hz'.
  lra.
Qed.

(** X9: the rationals [to_dms] writes.  For a coordinate between -180 and
    180 the degrees are between 0 and 180, the minutes between 0 and 60 and
    the milliseconds of arc between 0 and 60000, over the denominators 1, 1
    and 1000: no component is negative, and the sign of the coordinate is
    lost ([to_dms(-x)] is [to_dms(x)]). *)
Theorem to_dms_components_in_range (rnd : Q -> Q) (x : Q) :
  standard_model rnd ->
  -180 <= x <= 180 ->
  to_dms rnd (- x) = to_dms rnd x
  /\ exists d m ms : Z,
       to_dms rnd x = ((d, 1%Z), (m, 1%Z), (ms, 1000%Z))
       /\ (0 <= d <= 180)%Z /\ (0 <= m <= 60)%Z /\ (0 <= ms <= 60000)%Z.
Proof.
  intros Hstd Hx. split; [apply to_dms_opp|].
  assert (Ha0 : 0 <= Qabs x) by apply Qabs_nonneg.
  assert (Ha1 : Qabs x <= 180) by (apply Qabs_Qle_condition; lra).
  unfold to_dms. cbv zeta.
  eexists; eexists; eexists. split; [reflexivity|].
  unfold fadd, fsub, fmul, fdiv, float_of_int.
  set (a := Qabs x) in *.
  pose proof (proj1 (int_of_float_spec a) Ha0) as Hd.
  set (dz := int_of_float a) in *.
  round_near Hstd (inject_Z dz) Hfd. set (fd := rnd (inject_Z dz)) in *.
  round_near Hstd (a - fd) Hr1. set (r1 := rnd (a - fd)) in *.
  round_near Hstd (r1 * 60) Hmf. set (mf := rnd (r1 * 60)) in *.
  truncate_near mf Hm; set (mz := int_of_float mf) in *.
  all: assert (M0 : (0 <= mz)%Z) by (apply inject_Z_nonneg_of_gt; lra).
  all: try (assert (Mz : mz = 0%Z)
              by (assert (mz <= 0)%Z
                    by (apply inject_Z_le_of_lt; change (inject_Z 0) with 0;
                        lra);
                  lia)).
  all: try (assert (Mq : inject_Z mz == 0) by (rewrite Mz; reflexivity)).
  all: round_near Hstd (inject_Z mz) Hfm; set (fm := rnd (inject_Z mz)) in *.
  all: round_near Hstd (mf - fm) Hr2; set (r2 := rnd (mf - fm)) in *.
  all: round_near Hstd (r2 * 60) Hsec; set (s := rnd (r2 * 60)) in *.
  all: round_near Hstd (s * 1000) Ht; set (t := rnd (s * 1000)) in *.
  all: truncate_near t HS; set (Sz := int_of_float t) in *.
  all: assert (D0 : (0 <= dz)%Z) by (apply inject_Z_nonneg_of_gt; lra).
  all: assert (D1 : (dz <= 180)%Z)
    by (apply inject_Z_le_of_lt; change (inject_Z 180) with 180; lra).
  all: assert (M1 : (mz <= 60)%Z)
    by (apply inject_Z_le_of_lt; change (inject_Z 60) with 60; lra).
  all: assert (S0 : (0 <= Sz)%Z) by (apply inject_Z_nonneg_of_gt; lra).
  all: assert (S1 : (Sz <= 60000)%Z)
    by (apply inject_Z_le_of_lt; change (inject_Z 60000) with 60000; lra).
  all: lia.
Qed.

Lemma to_dms_components_in_range_witness :
  exists d m ms : Z,
    to_dms binary64 (- (481173 # 10000)) = ((d, 1%Z), (m, 1%Z), (ms, 1000%Z))
    /\ (0 <= d <= 180)%Z /\ (0 <= m <= 60)%Z /\ (0 <= ms <= 60000)%Z.
Proof.
  apply (proj2 (to_dms_components_in_range binary64 (- (481173 # 10000))
                  binary64_standard_model
                  ltac:(split; vm_compute; discriminate))).
Defined.

Local Open Scope Z_scope.

Lemma dms_to_decimal_readable (rnd : Q -> Q) (vals : list rational) :
  (exists v : Q, dms_to_decimal rnd vals = Ok v) <-> dms_readable vals = true.
Proof.
  unfold dms_to_decimal, dms_readable, item, float_of_ratio.
  destruct vals as [|[n0 d0] [|[n1 d1] [|[n2 d2] rest]]]; cbn [nth_error bind].
  - split; [intros [v H]; discriminate | discriminate].
  - destruct (d0 =? 0); cbn [bind];
      (split; [intros [v H]; discriminate | discriminate]).
  - destruct (d0 =? 0); cbn [bind];
      [split; [intros [v H]; discriminate | discriminate]|].
    destruct (d1 =? 0); cbn [bind];
      (split; [intros [v H]; discriminate | discriminate]).
  - destruct (d0 =? 0); cbn [bind negb andb];
      [split; [intros [v H]; discriminate | discriminate]|].
    destruct (d1 =? 0); cbn [bind negb andb];
      [split; [intros [v H]; discriminate | discriminate]|].
    destruct (d2 =? 0); cbn [bind negb andb];
      [split; [intros [v H]; discriminate | discriminate]|].
    split; [reflexivity|]. intros _. eexists. reflexivity.
Qed.

(** X10: when the reader finds a position.  [read_existing_gps_from_image]
    (and [read_gps_from_image], the same code) returns a position exactly
    when the file can be read, both GPS tags are there, and each holds at
    least three rationals of which the first three have a denominator that
    is not zero; in every other case it returns [None]. *)
Theorem reader_finds_a_position_exactly_when (rnd : Q -> Q)
    (tags : option gps_tags) :
  (exists lat lon : Q,
     read_existing_gps_from_image rnd tags = Some (lat, lon))
  <-> exists (t : gps_tags) (lat_vals lon_vals : list rational),
        tags = Some t
        /\ GPSLatitude t = Some lat_vals /\ GPSLongitude t = Some lon_vals
        /\ dms_readable lat_vals = true /\ dms_readable lon_vals = true.
Proof.
  unfold read_existing_gps_from_image. split.
  - intros (lat & lon & H). revert H.
    destruct tags as [t|]; [|discriminate].
    destruct (GPSLatitude t) as [la|] eqn:Hla; [|discriminate].
    destruct (GPSLongitude t) as [lo|] eqn:Hlo; [|discriminate].
    destruct (dms_to_decimal rnd la) as [u|] eqn:Eu; cbn [bind];
      [|discriminate].
    destruct (dms_to_decimal rnd lo) as [v|] eqn:Ev; cbn [bind];
      [|discriminate].
    intros _. exists t, la, lo.
    split; [reflexivity|]. split; [exact Hla|]. split; [exact Hlo|].
    split; apply (dms_to_decimal_readable rnd); eexists; eassumption.
  - intros (t & la & lo & -> & Hla & Hlo & Rla & Rlo).
    rewrite Hla, Hlo.
    apply (dms_to_decimal_readable rnd) in Rla as [u Eu].
    apply (dms_to_decimal_readable rnd) in Rlo as [v Ev].
    rewrite Eu, Ev. cbn [bind]. eexists; eexists. reflexivity.
Qed.

Lemma reader_finds_a_position_exactly_when_witness :
  exists lat lon : Q,
    read_existing_gps_from_image binary64 (Some sample_tags) = Some (lat, lon).
Proof.
  apply (proj2 (reader_finds_a_position_exactly_when binary64
                  (Some sample_tags))).
  exists sample_tags, [(48, 1); (7, 1); (2280, 1000)],
    [(11, 1); (31, 1); (120, 1000)].
  repeat split.
Defined.

Local Open Scope Z_scope.

Lemma str_lower_char_s (c : ascii) :
  str_lower_char c = "s"%char -> c = "s"%char \/ c = "S"%char.
Proof.
  destruct c as [[] [] [] [] [] [] [] []]; vm_compute; intros H;
    first [discriminate H | auto].
Qed.

Lemma str_lower_s (answer : string) :
  String.eqb (str_lower answer) "s" = true <-> answer = "s" \/ answer = "S".
Proof.
  rewrite String.eqb_eq. split.
  - destruct answer as [|c [|c' rest]]; cbn [str_lower]; try discriminate.
    intros H. inversion H as [Hc].
    destruct (str_lower_char_s c Hc) as [-> | ->]; auto.
  - intros [-> | ->]; reflexivity.
Qed.

Local Open Scope Q_scope.

(** X11: writing then reading.  The GPS block [add_gps_to_image] builds
    for a position (references [S]/[N] and [W]/[E] by sign, [to_dms] of both
    coordinates) is read back by [read_existing_gps_from_image] as a
    position within 0.001 degree of it, sign included. *)
Theorem gps_block_round_trip (rnd : Q -> Q) (lat lon : Q) :
  standard_model rnd ->
  -180 <= lat <= 180 ->
  -180 <= lon <= 180 ->
  exists lat' lon' : Q,
    read_existing_gps_from_image rnd (Some (gps_ifd rnd lat lon))
    = Some (lat', lon')
    /\ Qabs (lat' - lat) <= 1 # 1000
    /\ Qabs (lon' - lon) <= 1 # 1000.
Proof. apply written_position_is_read_back. Qed.

Lemma gps_block_round_trip_witness :
  exists lat' lon' : Q,
    read_existing_gps_from_image binary64
      (Some (gps_ifd binary64 (- (481173 # 10000)) (115167 # 10000)))
    = Some (lat', lon')
    /\ Qabs (lat' - - (481173 # 10000)) <= 1 # 1000
    /\ Qabs (lon' - (115167 # 10000)) <= 1 # 1000.
Proof.
  apply (gps_block_round_trip binary64 (- (481173 # 10000)) (115167 # 10000)
           binary64_standard_model);
    split; vm_compute; discriminate.
Defined.

(** X12: running [main] on an image it has tagged.  When the user answers
    [s] or [S], the image is tagged again with the position read from it,
    which is within 0.001 degree of the one written first, and [read_gps] is
    not called. *)
Theorem retagging_keeps_the_position (rnd : Q -> Q) (lat0 lon0 : Q)
    (answer : string) (device : option (list read_event)) :
  standard_model rnd ->
  -180 <= lat0 <= 180 ->
  -180 <= lon0 <= 180 ->
  answer = "s"%string \/ answer = "S"%string ->
  exists lat lon : Q,
    take_images_main rnd (Some (gps_ifd rnd lat0 lon0)) answer device
    = Some (Tagged lat lon (gps_ifd rnd lat lon), None)
    /\ Qabs (lat - lat0) <= 1 # 1000
    /\ Qabs (lon - lon0) <= 1 # 1000.
Proof.
  intros Hstd Hlat Hlon Ha.
  destruct (written_position_is_read_back rnd lat0 lon0 Hstd Hlat Hlon)
    as (lat & lon & Hr & Blat & Blon).
  exists lat, lon. split; [|split; assumption].
  unfold take_images_main. rewrite Hr.
  rewrite (proj2 (str_lower_s answer) Ha). reflexivity.
Qed.

Lemma retagging_keeps_the_position_witness :
  exists lat lon : Q,
    take_images_main binary64
      (Some (gps_ifd binary64 (- (481173 # 10000)) (115167 # 10000)))
      "S" (Some [Bytes gga_fix])
    = Some (Tagged lat lon (gps_ifd binary64 lat lon), None)
    /\ Qabs (lat - - (481173 # 10000)) <= 1 # 1000
    /\ Qabs (lon - (115167 # 10000)) <= 1 # 1000.
Proof.
  apply (retagging_keeps_the_position binary64 (- (481173 # 10000))
           (115167 # 10000) "S" (Some [Bytes gga_fix])
           binary64_standard_model).
  - split; vm_compute; discriminate.
  - split; vm_compute; discriminate.
  - right. reflexivity.
Defined.

Local Open Scope Z_scope.

(** X13: where [main] takes the position from.  [read_gps] is skipped
    exactly when the image has a readable position and the answer is [s] or
    [S]; then that position is written.  In every other case the position
    written is the fix [read_gps] returned, and nothing is written when
    [read_gps] returned [None]. *)
Theorem main_reads_the_device_unless_told (rnd : Q -> Q)
    (tags : option gps_tags) (answer : string)
    (device : option (list read_event)) (t : tagging)
    (used : option (option port)) :
  take_images_main rnd tags answer device = Some (t, used) ->
  (used = None
   <-> (exists p, read_existing_gps_from_image rnd tags = Some p)
       /\ (answer = "s" \/ answer = "S"))
  /\ match t with
     | Tagged lat lon block =>
         block = gps_ifd rnd lat lon
         /\ (used = None ->
             read_existing_gps_from_image rnd tags = Some (lat, lon))
         /\ (forall p, used = Some p ->
             read_gps rnd device = Some (Fixed lat lon, p))
     | NotTagged =>
         exists o p,
           used = Some p /\ read_gps rnd device = Some (o, p)
           /\ returned o = None
     end.
Proof.
  assert (Hdev : forall t used,
             tag_from_device rnd device = Some (t, used) ->
             used <> None
             /\ match t with
                | Tagged lat lon block =>
                    block = gps_ifd rnd lat lon
                    /\ (forall p, used = Some p ->
                        read_gps rnd device = Some (Fixed lat lon, p))
                | NotTagged =>
                    exists o p,
                      used = Some p /\ read_gps rnd device = Some (o, p)
                      /\ returned o = None
                end).
  { intros t' used'. unfold tag_from_device.
    destruct (read_gps rnd device) as [[o p]|]; [|discriminate].
    destruct o as [lat lon| | |e]; cbn [returned]; intros H;
      inversion H; subst; (split; [discriminate|]).
    - split; [reflexivity|]. intros p' Hp. inversion Hp; subst. reflexivity.
    - exists TimedOut, p. repeat split.
    - exists DeviceError, p. repeat split.
    - exists (UnexpectedError e), p. repeat split. }
  unfold take_images_main.
  destruct (read_existing_gps_from_image rnd tags) as [[lat lon]|] eqn:Hr.
  - destruct (String.eqb (str_lower answer) "s") eqn:Ha.
    + intros H. inversion H; subst. split.
      * split; [intros _|reflexivity].
        split; [eexists; reflexivity | apply str_lower_s; exact Ha].
      * split; [reflexivity|]. split; [reflexivity|]. intros p Hp.
        discriminate.
    + intros H. destruct (Hdev t used H) as [Hu Ht]. split.
      * split; [intros E; contradiction|].
        intros [_ Hs]. apply str_lower_s in Hs. congruence.
      * destruct t as [lat' lon' block|]; [|exact Ht].
        destruct Ht as [Hb Hp]. split; [exact Hb|].
        split; [intros E; contradiction | exact Hp].
  - intros H. destruct (Hdev t used H) as [Hu Ht]. split.
    + split; [intros E; contradiction|]. intros [[p Hp] _]. discriminate.
    + destruct t as [lat' lon' block|]; [|exact Ht].
      destruct Ht as [Hb Hp]. split; [exact Hb|].
      split; [intros E; contradiction | exact Hp].
Qed.

Local Open Scope Z_scope.

(** The record [process_single_image] builds, given the counts. *)
Lemma process_single_image_record (rnd : Q -> Q) (path : string)
    (tags : option gps_tags) (decodes : bool)
    (inference : result (list prediction)) (now : string)
    (r : detection_record) :
  process_single_image rnd path tags decodes inference now = Some r ->
  exists (lat lon : Q) (predictions : list prediction),
    read_gps_from_image rnd tags = Some (lat, lon)
    /\ decodes = true
    /\ inference = Ok predictions
    /\ (match predictions with
        | [] => detection_counts r = ∅
        | _ => count_loop predictions (from_inference predictions) ∅
               = Ok (detection_counts r)
        end)
    /\ r = {| image_path := path; latitude := lat; longitude := lon;
              total_detections := Z.of_nat (length predictions);
              detection_counts := detection_counts r; timestamp := now |}.
Proof.
  unfold process_single_image.
  destruct (read_gps_from_image rnd tags) as [[lat lon]|]; [|discriminate].
  destruct decodes; cbn [negb]; [|discriminate].
  destruct inference as [predictions|e]; cbn [bind]; [|discriminate].
  unfold from_inference. rewrite length_map.
  destruct predictions as [|first others].
  - cbn. intros H. inversion H; subst. cbn.
    exists lat, lon, []. repeat split.
  - replace (0 <? Z.of_nat (length (first :: others))) with true
      by (symmetry; apply Z.ltb_lt; cbn [length]; lia).
    destruct (count_loop (first :: others)
                (map class_id (first :: others)) ∅) as [counts|e] eqn:Hc;
      cbn [bind]; [|discriminate].
    intros H. inversion H; subst. cbn [detection_counts].
    exists lat, lon, (first :: others). repeat split. exact Hc.
Qed.



(** When the first prediction has a name, every turn counts under it. *)
Lemma count_loop_named (first : prediction) (others : list prediction)
    (name : string) (class_ids : list Z) :
  class_name first = Some name ->
  forall counts : gmap string Z,
    count_loop (first :: others) class_ids counts
    = Ok match class_ids with
         | [] => counts
         | _ => <[name := default 0 (counts !! name)
                          + Z.of_nat (length class_ids)]> counts
         end.
Proof.
  intros Hn. induction class_ids as [|c rest IH]; intros counts;
    [reflexivity|].
  cbn [count_loop item nth_error bind]. rewrite Hn. rewrite IH.
  f_equal. unfold tally. destruct rest as [|c' rest'].
  - reflexivity.
  - rewrite lookup_insert_eq. cbn [default from_option id].
    rewrite insert_insert_eq. f_equal. cbn [length]. lia.
Qed.

(** X15: the class names of the counts.  When the first prediction has a
    class name, every detection is counted under that name, whatever its own
    class: [detection_counts] has that single key, with the number of
    detections. *)
Theorem all_detections_take_the_first_name (rnd : Q -> Q) (path : string)
    (tags : option gps_tags) (decodes : bool) (first : prediction)
    (others : list prediction) (name : string) (now : string)
    (r : detection_record) :
  class_name first = Some name ->
  process_single_image rnd path tags decodes (Ok (first :: others)) now
  = Some r ->
  detection_counts r = {[ name := Z.of_nat (S (length others)) ]}.
Proof.
  intros Hn H.
  destruct (process_single_image_record rnd _ _ _ _ _ r H)
    as (lat & lon & predictions & _ & _ & Hi & Hc & _).
  inversion Hi; subst predictions.
  rewrite (count_loop_named first others name _ Hn) in Hc.
  cbn [from_inference map] in Hc. inversion Hc as [Hc'].
  rewrite lookup_empty. cbn [default from_option].
  rewrite insert_empty. f_equal. cbn [length]. rewrite length_map. lia.
Qed.

Lemma all_detections_take_the_first_name_witness :
  exists r : detection_record,
    process_single_image binary64 "a.jpg" (Some sample_tags) true
      (Ok sample_predictions) "2024-01-01T00:00:00" = Some r
    /\ detection_counts r = {[ "cherry" := 3 ]}.
Proof.
  destruct (process_single_image_produces binary64 "a.jpg" (Some sample_tags)
              sample_predictions "2024-01-01T00:00:00"
              (binary64 (binary64 (48 + binary64 (7 / 60))
                         + binary64 (binary64 (2280 / 1000) / 3600))%Q)
              (binary64 (binary64 (11 + binary64 (31 / 60))
                         + binary64 (binary64 (120 / 1000) / 3600))%Q)
              eq_refl)
    as [r [Hr _]].
  exists r. split; [exact Hr|].
  exact (all_detections_take_the_first_name binary64 "a.jpg"
           (Some sample_tags) true
           {| class_id := 0; class_name := Some "cherry" |}
           [ {| class_id := 1; class_name := Some "leaf" |};
             {| class_id := 0; class_name := Some "cherry" |} ]
           "cherry" "2024-01-01T00:00:00" r eq_refl Hr).
Defined.

Local Open Scope Z_scope.

Lemma to_int_normal (z : Z) : Decimal.norm (Z.to_int z) = Z.to_int z.
Proof. rewrite <- DecimalZ.to_of, DecimalZ.of_to. reflexivity. Qed.

Lemma synthetic_label_inj (c c' : Z) :
  synthetic_label c = synthetic_label c' -> c = c'.
Proof.
  unfold synthetic_label. intros H. cbn in H. inversion H as [H'].
  assert (Happ : forall s : string, String.append "" s = s) by reflexivity.
  rewrite !Happ in H'.
  apply DecimalZ.to_int_inj.
  assert (Hs : forall z : Z,
             NilZero.int_of_string (NilZero.string_of_int (Z.to_int z))
             = Some (Z.to_int z)).
  { intros z. apply NilZero.isi; intros E;
      pose proof (to_int_normal z) as N; rewrite E in N; discriminate. }
  pose proof (Hs c) as Hc. rewrite H', Hs in Hc. congruence.
Qed.

Lemma count_loop_unnamed (first : prediction) (others : list prediction)
    (class_ids : list Z) :
  class_name first = None ->
  forall (counts counts' : gmap string Z) (c : Z),
    count_loop (first :: others) class_ids counts = Ok counts' ->
    default 0 (counts' !! synthetic_label c)
    = default 0 (counts !! synthetic_label c) + occurrences c class_ids.
Proof.
  intros Hn. unfold occurrences.
  induction class_ids as [|c0 rest IH]; intros counts counts' c H.
  - cbn in H. inversion H; subst. cbn. lia.
  - cbn [count_loop item nth_error bind] in H. rewrite Hn in H.
    rewrite (IH _ _ c H). unfold tally. cbn [count_occ].
    destruct (Z.eq_dec c0 c) as [->|Hne].
    + rewrite lookup_insert_eq. cbn [default from_option id]. lia.
    + rewrite lookup_insert_ne
        by (intros E; apply synthetic_label_inj in E; contradiction).
      lia.
Qed.

(** X16: when the first prediction has no class name, the detections are
    counted under [class_<id>]: the count under [class_<c>] is the number of
    detections whose class id is [c]. *)
Theorem unnamed_detections_are_counted_by_class_id (rnd : Q -> Q)
    (path : string) (tags : option gps_tags) (decodes : bool)
    (first : prediction) (others : list prediction) (now : string)
    (r : detection_record) (c : Z) :
  class_name first = None ->
  process_single_image rnd path tags decodes (Ok (first :: others)) now
  = Some r ->
  default 0 (detection_counts r !! synthetic_label c)
  = occurrences c (map class_id (first :: others)).
Proof.
  intros Hn H.
  destruct (process_single_image_record rnd _ _ _ _ _ r H)
    as (lat & lon & predictions & _ & _ & Hi & Hc & _).
  inversion Hi; subst predictions.
  rewrite (count_loop_unnamed first others _ Hn ∅ _ c Hc).
  rewrite lookup_empty. reflexivity.
Qed.

Lemma unnamed_detections_are_counted_by_class_id_witness :
  exists r : detection_record,
    process_single_image binary64 "a.jpg" (Some sample_tags) true
      (Ok unnamed_predictions) "2024-01-01T00:00:00" = Some r
    /\ default 0 (detection_counts r !! "class_2") = 2
    /\ default 0 (detection_counts r !! "class_7") = 1.
Proof.
  destruct (process_single_image_produces binary64 "a.jpg" (Some sample_tags)
              unnamed_predictions "2024-01-01T00:00:00"
              (binary64 (binary64 (48 + binary64 (7 / 60))
                         + binary64 (binary64 (2280 / 1000) / 3600))%Q)
              (binary64 (binary64 (11 + binary64 (31 / 60))
                         + binary64 (binary64 (120 / 1000) / 3600))%Q)
              eq_refl)
    as [r [Hr _]].
  exists r. split; [exact Hr|].
  split.
  - exact (unnamed_detections_are_counted_by_class_id binary64 "a.jpg"
             (Some sample_tags) true
             {| class_id := 2; class_name := None |}
             [ {| class_id := 7; class_name := Some "leaf" |};
               {| class_id := 2; class_name := None |} ]
             "2024-01-01T00:00:00" r 2 eq_refl Hr).
  - exact (unnamed_detections_are_counted_by_class_id binary64 "a.jpg"
             (Some sample_tags) true
             {| class_id := 2; class_name := None |}
             [ {| class_id := 7; class_name := Some "leaf" |};
               {| class_id := 2; class_name := None |} ]
             "2024-01-01T00:00:00" r 7 eq_refl Hr).
Defined.

Local Open Scope Z_scope.

Lemma process_files_appends (rnd : Q -> Q) (source : string -> image_source)
    (clock : nat -> string) (files : list string) :
  forall (position : nat) (detection_data : list detection_record),
    process_files rnd source clock position files detection_data
    = detection_data ++ records_of rnd source clock position files.
Proof.
  induction files as [|image_path rest IH]; intros position detection_data.
  - cbn. rewrite app_nil_r. reflexivity.
  - cbn [process_files records_of]. cbv zeta.
    destruct (process_single_image rnd image_path _ _ _ _) as [r|].
    + rewrite IH, <- app_assoc. reflexivity.
    + apply IH.
Qed.

Lemma produced_record_consistent (rnd : Q -> Q) (path : string)
    (tags : option gps_tags) (decodes : bool)
    (inference : result (list prediction)) (now : string)
    (r : detection_record) :
  process_single_image rnd path tags decodes inference now = Some r ->
  consistent r /\ image_path r = path.
Proof.
  intros H.
  destruct (process_single_image_record rnd _ _ _ _ _ r H)
    as (lat & lon & predictions & _ & _ & _ & Hc & Hr).
  unfold consistent. rewrite Hr. cbn. split; [|reflexivity].
  destruct predictions as [|first others].
  - rewrite Hc, sum_values_empty. reflexivity.
  - apply count_loop_sum in Hc. rewrite Hc, sum_values_empty.
    unfold from_inference. rewrite length_map. lia.
Qed.

Lemma records_of_facts (rnd : Q -> Q) (source : string -> image_source)
    (clock : nat -> string) (files : list string) :
  forall position : nat,
    (length (records_of rnd source clock position files) <= length files)%nat
    /\ Forall (fun r => consistent r /\ In (image_path r) files)
         (records_of rnd source clock position files).
Proof.
  induction files as [|file rest IH]; intros position.
  - cbn. split; [lia | constructor].
  - cbn [records_of]. cbv zeta. destruct (IH (S position)) as [Hlen Hall].
    assert (Hall' : Forall (fun r => consistent r
                                     /\ In (image_path r) (file :: rest))
                      (records_of rnd source clock (S position) rest)).
    { eapply Forall_impl; [exact Hall|]. cbn. intros r [Hc Hin]. auto. }
    destruct (process_single_image rnd file _ _ _ _) as [r|] eqn:Hr.
    + split; [cbn [length]; lia|]. constructor; [|exact Hall'].
      destruct (produced_record_consistent rnd _ _ _ _ _ r Hr) as [Hc Hp].
      split; [exact Hc|]. left. symmetry. exact Hp.
    + split; [cbn [length]; lia | exact Hall'].
Qed.

Lemma image_files_flat_map (glob : string -> list string)
    (folder_path : string) (extensions : list string) :
  image_files glob folder_path extensions
  = flat_map (fun ext => glob (path_join folder_path ext)) extensions.
Proof.
  unfold image_files.
  assert (H : forall acc : list string,
             fold_left (fun files ext =>
                          files ++ glob (path_join folder_path ext))
                       extensions acc
             = acc ++ flat_map (fun ext => glob (path_join folder_path ext))
                        extensions).
  { induction extensions as [|ext rest IH]; intros acc; cbn.
    - rewrite app_nil_r. reflexivity.
    - rewrite IH, <- app_assoc. reflexivity. }
  apply (H []).
Qed.

(** X17: [process_image_folder].  The files are those of every pattern, in
    the order of the patterns, a file matched by two patterns twice.  The
    records of the images that can be processed are appended, in that order,
    to the records already held, which are kept; there are at most as many
    as files, each has the path of one of the files and satisfies
    [total_detections == sum(detection_counts.values())], so that the whole
    collection does if it did before. *)
Theorem folder_appends_consistent_records (rnd : Q -> Q)
    (glob : string -> list string) (source : string -> image_source)
    (clock : nat -> string) (folder_path : string) (extensions : list string)
    (detection_data : list detection_record) :
  let files := image_files glob folder_path extensions in
  let added := records_of rnd source clock 0 files in
  files = flat_map (fun ext => glob (path_join folder_path ext)) extensions
  /\ process_image_folder rnd glob source clock folder_path extensions
       detection_data
     = detection_data ++ added
  /\ (length added <= length files)%nat
  /\ Forall (fun r => consistent r /\ In (image_path r) files) added
  /\ (Forall consistent detection_data ->
      Forall consistent
        (process_image_folder rnd glob source clock folder_path extensions
           detection_data)).
Proof.
  intros files added.
  assert (Heq : process_image_folder rnd glob source clock folder_path
                  extensions detection_data = detection_data ++ added).
  { unfold process_image_folder. fold files. subst added.
    destruct files as [|f rest] eqn:Hf.
    - cbn. rewrite app_nil_r. reflexivity.
    - apply process_files_appends. }
  destruct (records_of_facts rnd source clock files 0) as [Hlen Hall].
  split; [apply image_files_flat_map|].
  split; [exact Heq|]. split; [exact Hlen|]. split; [exact Hall|].
  intros Hold. rewrite Heq. apply Forall_app. split; [exact Hold|].
  eapply Forall_impl; [exact Hall|]. cbn. intros r [Hc _]. exact Hc.
Qed.

Local Open Scope Z_scope.

Lemma add_class_count_comm (j1 j2 : string) (z1 z2 : Z) (y : gmap string Z) :
  j1 ≠ j2 ->
  add_class_count j1 z1 (add_class_count j2 z2 y)
  = add_class_count j2 z2 (add_class_count j1 z1 y).
Proof.
  intros Hne. unfold add_class_count.
  rewrite (lookup_insert_ne y j2 j1) by congruence.
  rewrite (lookup_insert_ne y j1 j2) by congruence.
  apply insert_insert_ne. congruence.
Qed.

Lemma add_counts_insert (acc m : gmap string Z) (i : string) (x : Z) :
  m !! i = None ->
  map_fold add_class_count acc (<[i:=x]> m)
  = add_class_count i x (map_fold add_class_count acc m).
Proof.
  intros Hi. apply map_fold_insert_L; [|exact Hi].
  intros j1 j2 z1 z2 y Hne _ _. apply add_class_count_comm. exact Hne.
Qed.

Lemma sum_values_add_class_count (acc : gmap string Z) (k : string) (x : Z) :
  sum_values (add_class_count k x acc) = sum_values acc + x.
Proof.
  unfold add_class_count. destruct (acc !! k) as [v|] eqn:Hk; cbn.
  - rewrite <- insert_delete_eq.
    rewrite sum_values_insert_fresh by apply lookup_delete_eq.
    rewrite (sum_values_delete acc k v Hk). lia.
  - rewrite sum_values_insert_fresh by exact Hk. lia.
Qed.

Lemma add_counts_sum (acc m : gmap string Z) :
  sum_values (map_fold add_class_count acc m) = sum_values acc + sum_values m.
Proof.
  induction m as [|i x m Hi IH] using map_ind.
  - rewrite map_fold_empty, sum_values_empty. lia.
  - rewrite (add_counts_insert acc m i x Hi), sum_values_add_class_count, IH.
    rewrite (sum_values_insert_fresh m i x Hi). lia.
Qed.

Lemma add_counts_lookup (acc m : gmap string Z) (c : string) :
  default 0 (map_fold add_class_count acc m !! c)
  = default 0 (acc !! c) + default 0 (m !! c).
Proof.
  induction m as [|i x m Hi IH] using map_ind.
  - rewrite map_fold_empty, lookup_empty. cbn. lia.
  - rewrite (add_counts_insert acc m i x Hi). unfold add_class_count.
    destruct (decide (i = c)) as [->|Hne].
    + rewrite !lookup_insert_eq. rewrite Hi in IH.
      change (default 0 (Some (default 0 (map_fold add_class_count acc m !! c)
                               + x))
              = default 0 (acc !! c) + x).
      rewrite IH. cbn. lia.
    + rewrite !lookup_insert_ne by exact Hne. exact IH.
Qed.

Lemma summary_total_fold (detection_data : list detection_record) :
  forall acc : Z,
    fold_left (fun acc item => acc + total_detections item) detection_data acc
    = acc + total_of detection_data.
Proof.
  unfold total_of.
  induction detection_data as [|item rest IH]; intros acc; cbn.
  - lia.
  - rewrite IH. lia.
Qed.

Lemma summary_classes_fold (detection_data : list detection_record) :
  forall classes : gmap string Z,
    let result :=
      fold_left (fun classes item =>
                   map_fold add_class_count classes (detection_counts item))
                detection_data classes in
    (forall c : string,
       default 0 (result !! c)
       = default 0 (classes !! c) + class_total_of c detection_data)
    /\ sum_values result
       = sum_values classes
         + fold_right (fun item acc => sum_values (detection_counts item) + acc)
             0 detection_data.
Proof.
  unfold class_total_of.
  induction detection_data as [|item rest IH]; intros classes; cbn.
  - split; [intros c|]; lia.
  - destruct (IH (map_fold add_class_count classes (detection_counts item)))
      as [Hl Hs].
    cbn in Hl, Hs. split.
    + intros c. rewrite Hl, add_counts_lookup. unfold count_of. lia.
    + rewrite Hs, add_counts_sum. lia.
Qed.

Lemma consistent_totals (detection_data : list detection_record) :
  Forall consistent detection_data ->
  fold_right (fun item acc => sum_values (detection_counts item) + acc)
    0 detection_data
  = total_of detection_data.
Proof.
  unfold total_of.
  induction 1 as [|item rest Hc _ IH]; cbn; [reflexivity|].
  rewrite IH. unfold consistent in Hc. lia.
Qed.

(** X18: the figures of [get_detection_summary].  For a non-empty
    collection the number of images is its length, the total is the sum of
    the [total_detections], and the count shown for a class is the sum of
    that class's counts over the records; when every record satisfies the
    aggregation invariant the class counts add up to the total. *)
Theorem summary_adds_up (rnd : Q -> Q)
    (detection_data : list detection_record) (s : summary) :
  get_detection_summary rnd detection_data = Some s ->
  total_images s = Z.of_nat (length detection_data)
  /\ 0 < total_images s
  /\ summary_total_detections s = total_of detection_data
  /\ (forall c : string,
        default 0 (all_classes s !! c) = class_total_of c detection_data)
  /\ (Forall consistent detection_data ->
      sum_values (all_classes s) = summary_total_detections s).
Proof.
  unfold get_detection_summary.
  destruct detection_data as [|item rest] eqn:Hd; [discriminate|].
  rewrite <- Hd. intros H. inversion H; subst s. cbn [total_images
    summary_total_detections all_classes].
  destruct (summary_classes_fold detection_data ∅) as [Hl Hs]. cbn in Hl, Hs.
  split; [reflexivity|]. split; [rewrite Hd; cbn [length]; lia|].
  split; [rewrite summary_total_fold; lia|].
  split.
  - intros c. rewrite Hl, lookup_empty. cbn. lia.
  - intros Hc. rewrite Hs, sum_values_empty, summary_total_fold.
    rewrite (consistent_totals detection_data Hc). lia.
Qed.

Lemma summary_adds_up_witness :
  exists s : summary,
    get_detection_summary binary64 sample_records = Some s
    /\ total_images s = 2
    /\ summary_total_detections s = 3
    /\ default 0 (all_classes s !! "cherry") = 2
    /\ sum_values (all_classes s) = 3.
Proof.
  destruct (get_detection_summary binary64 sample_records) as [s|] eqn:E;
    [|discriminate].
  exists s. split; [reflexivity|].
  destruct (summary_adds_up binary64 sample_records s E)
    as (H1 & _ & H3 & H4 & H5).
  split; [exact H1|]. split; [exact H3|]. split; [exact (H4 "cherry")|].
  rewrite H5; [exact H3|].
  repeat constructor.
Defined.

Local Open Scope Z_scope.

Lemma class_markers_heat (target_class : option string)
    (detection_data : list detection_record) :
  class_markers target_class detection_data
  = map marker_of (class_heat_data target_class detection_data).
Proof.
  induction detection_data as [|item rest IH]; [reflexivity|].
  cbn [class_markers class_heat_data]. cbv zeta.
  destruct (0 <? class_intensity target_class item); cbn [map];
    rewrite IH; reflexivity.
Qed.

(** X19: the two passes of [create_class_specific_heatmap] agree.  There
    is one marker for each weighted point, at its position, with radius
    3 + 2 * intensity (at least 5); every intensity is positive; and the map
    has no heat layer exactly when no record qualifies, in which case it has
    no marker either. *)
Theorem class_markers_follow_the_heat_points (rnd : Q -> Q)
    (target_class : option string) (detection_data : list detection_record)
    (m : folium_map) :
  create_class_specific_heatmap rnd target_class detection_data = Some m ->
  let heat_data := class_heat_data target_class detection_data in
  markers m = map marker_of heat_data
  /\ (heat_layer m = None <-> heat_data = [])
  /\ (forall points : list weighted_point,
        heat_layer m = Some points -> points = heat_data)
  /\ Forall (fun p => 0 < snd p) heat_data
  /\ Forall (fun k => 5 <= marker_radius k) (markers m).
Proof.
  intros H. cbv zeta.
  assert (Hm : markers m
               = match class_heat_data target_class detection_data with
                 | [] => []
                 | _ => class_markers target_class detection_data
                 end
               /\ heat_layer m
                  = match class_heat_data target_class detection_data with
                    | [] => None
                    | _ => Some (class_heat_data target_class detection_data)
                    end).
  { unfold create_class_specific_heatmap in H.
    destruct detection_data as [|item rest]; [discriminate|].
    inversion H; subst m. split; reflexivity. }
  destruct Hm as [-> ->]. clear H.
  assert (Hpos : Forall (fun p : weighted_point => 0 < snd p)
                   (class_heat_data target_class detection_data)).
  { induction detection_data as [|item rest IH]; [constructor|].
    cbn [class_heat_data]. cbv zeta.
    destruct (0 <? class_intensity target_class item) eqn:E; [|exact IH].
    constructor; [|exact IH]. cbn. apply Z.ltb_lt. exact E. }
  rewrite class_markers_heat.
  destruct (class_heat_data target_class detection_data) as [|p ps] eqn:Hh.
  - split; [reflexivity|]. split; [split; reflexivity|].
    split; [intros points Hp; discriminate|]. split; constructor.
  - split; [reflexivity|]. split; [split; discriminate|].
    split; [intros points Hp; inversion Hp; reflexivity|].
    split; [exact Hpos|].
    apply Forall_map. eapply Forall_impl; [exact Hpos|].
    intros [[lat lon] i]. cbn. lia.
Qed.

Lemma class_markers_follow_the_heat_points_witness :
  exists m : folium_map,
    create_class_specific_heatmap binary64 (Some "leaf") sample_records
    = Some m
    /\ markers m
       = [ {| marker_location := (481173 # 10000, 115167 # 10000);
              marker_radius := 5 |} ].
Proof.
  destruct (create_class_specific_heatmap binary64 (Some "leaf")
              sample_records) as [m|] eqn:E; [|discriminate].
  exists m. split; [reflexivity|].
  destruct (class_markers_follow_the_heat_points binary64 (Some "leaf")
              sample_records m E) as [Hm _].
  rewrite Hm. vm_compute. reflexivity.
Defined.

Lemma class_intensity_no_target (target_class : option string)
    (item : detection_record) :
  target_class = None \/ target_class = Some "" ->
  class_intensity target_class item = total_detections item.
Proof. intros [-> | ->]; reflexivity. Qed.

(** X20: the class view without a class.  With no target class (or the
    empty name) the weighted points of [create_class_specific_heatmap] are
    those of the basic heatmap for the records that have at least one
    detection: images without detections, which the basic heatmap shows with
    intensity 1, are left out. *)
Theorem no_target_class_drops_empty_images (target_class : option string)
    (detection_data : list detection_record) :
  target_class = None \/ target_class = Some "" ->
  class_heat_data target_class detection_data
  = basic_heat_data
      (List.filter (fun item => 0 <? total_detections item) detection_data).
Proof.
  intros Ht. unfold basic_heat_data.
  induction detection_data as [|item rest IH]; [reflexivity|].
  cbn [class_heat_data List.filter]. cbv zeta.
  rewrite (class_intensity_no_target target_class item Ht).
  destruct (0 <? total_detections item) eqn:E; cbn [map]; rewrite IH;
    [|reflexivity].
  apply Z.ltb_lt in E.
  replace (Z.max 1 (total_detections item)) with (total_detections item)
    by lia.
  reflexivity.
Qed.

Lemma no_target_class_drops_empty_images_witness :
  class_heat_data None sample_records
  = [ (481173 # 10000, 115167 # 10000, 3) ]
  /\ length (basic_heat_data sample_records) = 2%nat.
Proof.
  split; [|reflexivity].
  rewrite (no_target_class_drops_empty_images None sample_records
             (or_introl eq_refl)).
  reflexivity.
Defined.

Local Open Scope Z_scope.

Lemma folder_appends_consistent_records_witness :
  image_files sample_glob "photos" default_extensions
  = ["photos/a.jpg"; "photos/b.jpg"]
  /\ length (process_image_folder binary64 sample_glob sample_source
               sample_clock "photos" default_extensions []) = 1%nat
  /\ Forall consistent
       (process_image_folder binary64 sample_glob sample_source
          sample_clock "photos" default_extensions []).
Proof.
  split; [reflexivity|]. split; [vm_compute; reflexivity|].
  destruct (folder_appends_consistent_records binary64 sample_glob
              sample_source sample_clock "photos" default_extensions [])
    as (_ & _ & _ & _ & H).
  apply H. constructor.
Defined.

Lemma main_reads_the_device_unless_told_witness :
  exists (lat lon : Q) (block : gps_tags) (p : option port),
    take_images_main binary64 (Some sample_tags) "n" (Some [Bytes gga_fix])
    = Some (Tagged lat lon block, Some p)
    /\ block = gps_ifd binary64 lat lon
    /\ read_gps binary64 (Some [Bytes gga_fix]) = Some (Fixed lat lon, p).
Proof.
  assert (H : exists (lat lon : Q) (block : gps_tags) (p : option port),
             take_images_main binary64 (Some sample_tags) "n"
               (Some [Bytes gga_fix])
             = Some (Tagged lat lon block, Some p))
    by (do 4 eexists; vm_compute; reflexivity).
  destruct H as (lat & lon & block & p & H).
  exists lat, lon, block, p. split; [exact H|].
  destruct (main_reads_the_device_unless_told binary64 _ _ _ _ _ H)
    as [_ (Hb & _ & Hp)].
  split; [exact Hb | exact (Hp p eq_refl)].
Defined.
